(** * Preprocessing pipeline of the Seattle weather dataset

    Shallow embedding of [preprocess_data] from
    [Preprocessing/automate_Irfan_Ziyadi_R.py] together with the pandas and
    scikit-learn operations it calls, followed by the properties of the
    transformer.

    Conventions of the embedding:
    - a data frame is a header and a list of rows; a cell is a number, a
      text or the missing marker (pandas' NaN);
    - a float64 is known by its value: a finite one is a rational in lowest
      terms ([Qc]; every finite float is one), then come the two infinities,
      and NaN is the missing marker.  Cell equality is plain equality, as
      [==] is on floats that are not NaN (the two zeros are one value);
    - what pandas and scikit-learn compute in float64 (the mean of a column,
      the statistics of the scaler, the standardised value) is a parameter
      ([FloatOps]): nothing is assumed about rounding or overflow;
    - Python sets have no iteration order; the order is a parameter
      ([HashOrder]) of every definition that builds a set;
    - the grammar of numeric literals accepted by [pd.to_numeric] is a
      parameter ([to_float]);
    - logging and exceptions are a writer/error monad [M]. *)

From Stdlib Require Import List String Ascii Bool Arith Lia.
From Stdlib Require Import ZArith QArith Qcanon.
From Stdlib Require Import Permutation Sorted OrderedTypeEx.
From Stdlib Require DecimalString.
Import ListNotations.

Local Open Scope string_scope.
Local Open Scope list_scope.
Local Open Scope nat_scope.

(* ================================================================= *)
(** ** Python builtins *)

Module Py.

(** Iteration order of a Python [set]: some rearrangement of its elements,
    fixed by the hash seed of the interpreter. *)
Record HashOrder : Type := {
  set_iter : forall A : Type, list A -> list A;
  set_iter_perm : forall (A : Type) (l : list A), Permutation (set_iter A l) l
}.

Section Builtins.
Context {A : Type}.
Variable eq_dec : forall x y : A, {x = y} + {x <> y}.
Variable ltb : A -> A -> bool.

Definition mem (x : A) (l : list A) : bool :=
  if in_dec eq_dec x l then true else false.

(** [set(l)]: the distinct elements of [l], in hash order. *)
Definition set (h : HashOrder) (l : list A) : list A :=
  set_iter h A (nodup eq_dec l).

(** [s - t] on sets. *)
Definition set_difference (h : HashOrder) (s t : list A) : list A :=
  set_iter h A (filter (fun x => negb (mem x t)) s).

Fixpoint insert_sorted (x : A) (l : list A) : list A :=
  match l with
  | [] => [x]
  | y :: l' => if ltb y x then y :: insert_sorted x l' else x :: l
  end.

(** [sorted(l)]: stable, ascending for [<]. *)
Definition sorted (l : list A) : list A :=
  fold_right insert_sorted [] l.

(** [l.index(x)], [None] standing for the ValueError. *)
Fixpoint index (x : A) (l : list A) : option nat :=
  match l with
  | [] => None
  | y :: l' => if eq_dec x y then Some 0
               else option_map S (index x l')
  end.

(** [d[k] = v] on a dict, which keeps insertion order. *)
Fixpoint dict_set {V : Type} (d : list (A * V)) (k : A) (v : V)
  : list (A * V) :=
  match d with
  | [] => [(k, v)]
  | (k', v') :: d' =>
      if eq_dec k k' then (k', v) :: d' else (k', v') :: dict_set d' k v
  end.

(** [dict(pairs)]. *)
Definition dict {V : Type} (pairs : list (A * V)) : list (A * V) :=
  fold_left (fun d kv => dict_set d (fst kv) (snd kv)) pairs [].

(** [d.get(k)]. *)
Fixpoint dict_get {V : Type} (d : list (A * V)) (k : A) : option V :=
  match d with
  | [] => None
  | (k', v) :: d' => if eq_dec k k' then Some v else dict_get d' k
  end.
End Builtins.

Fixpoint zip {A B : Type} (l : list A) (l' : list B) : list (A * B) :=
  match l, l' with
  | x :: t, y :: t' => (x, y) :: zip t t'
  | _, _ => []
  end.

End Py.

(* ================================================================= *)
(** ** Cells and data frames *)

(** A float64 that is not NaN, by its value. *)
Inductive number : Type :=
| Finite (x : Qc)
| PosInf
| NegInf.

Coercion Finite : Qc >-> number.

(** A float64: NaN is [None]. *)
Definition float64 : Type := option number.

Definition number_eq_dec (x y : number) : {x = y} + {x <> y}.
Proof.
  decide equality; apply Qc_eq_dec.
Defined.

Definition is_inf (x : number) : bool :=
  match x with Finite _ => false | _ => true end.

Definition is_posinf (v : float64) : bool :=
  match v with Some PosInf => true | _ => false end.

Definition is_neginf (v : float64) : bool :=
  match v with Some NegInf => true | _ => false end.

(** [np.isfinite(v) or np.isnan(v)]. *)
Definition finite_or_nan (v : float64) : bool :=
  match v with Some x => negb (is_inf x) | None => true end.

(** A value of the raw table: numeric, textual or missing. *)
Inductive cell : Type :=
| Num (x : number)
| Text (s : string)
| NA.

Definition cell_eq_dec (a b : cell) : {a = b} + {a <> b}.
Proof.
  decide equality; [apply number_eq_dec | apply string_dec].
Defined.

Definition Qcltb (x y : Qc) : bool :=
  match (x ?= y)%Qc with Lt => true | _ => false end.

Definition number_ltb (x y : number) : bool :=
  match x, y with
  | Finite a, Finite b => Qcltb a b
  | NegInf, NegInf => false
  | NegInf, _ => true
  | _, NegInf => false
  | PosInf, _ => false
  | Finite _, PosInf => true
  end.

(** The order in which scikit-learn's [_unique] lists the values of a
    column: numbers by value, texts by code points, the missing marker
    last.  A number is never compared with a text (see [mixed]); the order
    puts numbers first to stay total. *)
Definition cell_ltb (a b : cell) : bool :=
  match a, b with
  | Num x, Num y => number_ltb x y
  | Text s, Text t => String.ltb s t
  | Num _, Text _ => true
  | Text _, Num _ => false
  | NA, _ => false
  | _, NA => true
  end.

Definition row : Type := list cell.

Record DataFrame : Type := {
  columns : list string;
  rows : list row
}.

(** Column labels are pairwise distinct and every row has one cell per
    column, as [pd.read_csv] delivers them. *)
Definition wf_frame (df : DataFrame) : Prop :=
  NoDup (columns df) /\
  Forall (fun r => List.length r = List.length (columns df)) (rows df).

Definition row_eq_dec : forall r r' : row, {r = r'} + {r <> r'} :=
  list_eq_dec cell_eq_dec.

(** [duplicated(keep="first")] walks the rows with the table of rows seen
    so far; [drop_duplicates] keeps the rows not marked. *)
Fixpoint keep_first (seen : list row) (l : list row) : list row :=
  match l with
  | [] => []
  | r :: l' =>
      if Py.mem row_eq_dec r seen then keep_first seen l'
      else r :: keep_first (r :: seen) l'
  end.

Definition drop_duplicates (df : DataFrame) : DataFrame :=
  {| columns := columns df; rows := keep_first [] (rows df) |}.

(** A frame seen column by column: label and values. *)
Definition Frame (V : Type) : Type := list (string * list V).

Definition column_at (df : DataFrame) (j : nat) : list cell :=
  map (fun r => nth j r NA) (rows df).

Fixpoint enumerate_from {A : Type} (j : nat) (l : list A) : list (nat * A) :=
  match l with
  | [] => []
  | x :: l' => (j, x) :: enumerate_from (S j) l'
  end.

(** [df.drop(columns=labels)]. *)
Definition drop (df : DataFrame) (labels : list string) : Frame cell :=
  map (fun jc => (snd jc, column_at df (fst jc)))
      (filter (fun jc => negb (Py.mem string_dec (snd jc) labels))
              (enumerate_from 0 (columns df))).

(** [df[label]], [None] standing for the KeyError. *)
Definition getitem (df : DataFrame) (label : string) : option (list cell) :=
  option_map (column_at df) (Py.index string_dec label (columns df)).

(** [X.empty]: some axis has length zero. *)
Definition empty {V : Type} (X : Frame V) : bool :=
  match X with
  | [] => true
  | (_, []) :: _ => true
  | _ => false
  end.

(** [frame.drop(columns=labels)] on a column-wise frame. *)
Definition drop_labels {V : Type} (X : Frame V) (labels : list string)
  : Frame V :=
  filter (fun cv => negb (Py.mem string_dec (fst cv) labels)) X.

(* ================================================================= *)
(** ** Numeric coercion, pruning and imputation (pandas) *)

Definition isna {V : Type} (v : option V) : bool :=
  match v with None => true | Some _ => false end.

(** [Series.dropna()]. *)
Fixpoint dropna {V : Type} (vs : list (option V)) : list V :=
  match vs with
  | [] => []
  | Some x :: vs' => x :: dropna vs'
  | None :: vs' => dropna vs'
  end.

(** The float64 computations of the two libraries, each a function of the
    values it is given:
    - [series_mean]: [Series.mean()] of a column, which skips NaN;
    - [fit_mean] and [fit_scale]: the [mean_] and [scale_] that
      [StandardScaler.fit] stores for a column (NaN skipped; [scale_] is the
      square root of [var_], or one where scikit-learn takes the column for
      constant);
    - [standardize x m s]: [(x - m) / s]. *)
Record FloatOps : Type := {
  series_mean : list float64 -> float64;
  fit_mean : list float64 -> float64;
  fit_scale : list float64 -> float64;
  standardize : number -> float64 -> float64 -> float64
}.

(** [Series.mean()].  The mean of no value is NaN, and so is the mean of a
    column that holds both infinities: their sum is NaN in whatever order
    the values are added. *)
Definition mean (np : FloatOps) (vs : list float64) : float64 :=
  if forallb isna vs then None
  else if existsb is_posinf vs && existsb is_neginf vs then None
  else series_mean np vs.

(** [X.fillna(X.mean())]: column by column; a NaN mean fills nothing. *)
Definition fillna_mean (np : FloatOps) (X : Frame float64) : Frame float64 :=
  map (fun cv =>
         (fst cv,
          map (fun v => match v with
                        | Some x => Some x
                        | None => mean np (snd cv)
                        end)
              (snd cv)))
      X.

(** [[c for c in X.columns if X[c].isna().all()]]. *)
Definition all_na_cols (X : Frame float64) : list string :=
  map fst (filter (fun cv => forallb isna (snd cv)) X).

(* ================================================================= *)
(** ** scikit-learn: LabelEncoder *)

Module LabelEncoder.

Record t : Type := { classes_ : list cell }.

Definition is_num (c : cell) : bool :=
  match c with Num _ => true | _ => false end.
Definition is_text (c : cell) : bool :=
  match c with Text _ => true | _ => false end.

(** Numbers and texts in one column: [sorted] raises a TypeError. *)
Definition mixed (y : list cell) : bool :=
  existsb is_num y && existsb is_text y.

(** [_unique(y)]: the sorted distinct values. *)
Definition unique (h : Py.HashOrder) (y : list cell) : list cell :=
  Py.sorted cell_ltb (Py.set cell_eq_dec h y).

(** Position of every value in the classes; an unseen value is an error. *)
Fixpoint encode (classes : list cell) (y : list cell) : option (list nat) :=
  match y with
  | [] => Some []
  | v :: y' =>
      match Py.index cell_eq_dec v classes, encode classes y' with
      | Some i, Some l => Some (i :: l)
      | _, _ => None
      end
  end.

Definition fit_transform (h : Py.HashOrder) (y : list cell)
  : option (t * list nat) :=
  if mixed y then None
  else
    let classes := unique h y in
    option_map (fun codes => ({| classes_ := classes |}, codes))
               (encode classes y).

Definition transform (enc : t) (y : list cell) : option (list nat) :=
  encode (classes_ enc) y.

End LabelEncoder.

(* ================================================================= *)
(** ** scikit-learn: StandardScaler *)

Module StandardScaler.

Record t : Type := {
  mean_ : list float64;
  scale_ : list float64
}.

(** [check_array(X, force_all_finite="allow-nan")]: NaN passes, an infinite
    value does not. *)
Definition all_finite (X : list (list float64)) : bool :=
  forallb (forallb finite_or_nan) X.

(** [fit(X)], [None] standing for the ValueError ("Input X contains
    infinity or a value too large for dtype('float64')"). *)
Definition fit (np : FloatOps) (X : list (list float64)) : option t :=
  if all_finite X then
    Some {| mean_ := map (fit_mean np) X; scale_ := map (fit_scale np) X |}
  else None.

(** One entry of [(X - mean_) / scale_]; NaN stays NaN. *)
Definition scale_value (np : FloatOps) (m s : float64) (v : float64)
  : float64 :=
  match v with
  | Some x => standardize np x m s
  | None => None
  end.

Definition transform (np : FloatOps) (sc : t) (X : list (list float64))
  : list (list float64) :=
  map (fun cms =>
         map (scale_value np (fst (snd cms)) (snd (snd cms))) (fst cms))
      (Py.zip X (Py.zip (mean_ sc) (scale_ sc))).

Definition fit_transform (np : FloatOps) (X : list (list float64))
  : option (list (list float64)) :=
  option_map (fun sc => transform np sc X) (fit np X).

End StandardScaler.

(* ================================================================= *)
(** ** The processed table *)

(** A column of the processed table: scaled floats or integer codes. *)
Inductive series : Type :=
| Float64 (vs : list float64)
| Int64 (vs : list nat).

Definition series_length (s : series) : nat :=
  match s with
  | Float64 vs => List.length vs
  | Int64 vs => List.length vs
  end.

Definition Processed : Type := list (string * series).

(** Number of rows of a processed table ([len(df)]). *)
Definition nrows (p : Processed) : nat :=
  match p with
  | [] => 0
  | (_, s) :: _ => series_length s
  end.

(** [pd.DataFrame(values, columns=labels)]. *)
Definition frame_of_array (values : list (list float64))
  (labels : list string) : Processed :=
  map (fun cv => (fst cv, Float64 (snd cv))) (Py.zip labels values).

Fixpoint replace_or_append (p : Processed) (label : string) (s : series)
  : Processed :=
  match p with
  | [] => [(label, s)]
  | (c, s') :: p' =>
      if string_dec label c then (c, s) :: p'
      else (c, s') :: replace_or_append p' label s
  end.

(** [df[label] = values]: an existing column is overwritten in place, a new
    one is added last; [None] stands for the ValueError on a length that
    does not match the frame. *)
Definition setitem (p : Processed) (label : string) (s : series)
  : option Processed :=
  match p with
  | [] => Some [(label, s)]
  | _ => if Nat.eqb (series_length s) (nrows p)
         then Some (replace_or_append p label s) else None
  end.

(** [X.to_numpy()] as seen by the scaler. *)
Definition to_array (X : Frame float64) : list (list float64) :=
  map snd X.

(* ================================================================= *)
(** ** Logging and exceptions *)

(** The two failures raised by the transformer itself, and the exceptions
    that come out of a library call. *)
Inductive error : Type :=
| SchemaError (missing : list string)
    (** ValueError, required columns absent; carries [sorted(missing)] *)
| NoUsableFeatures
    (** ValueError, no numeric column left to standardise *)
| LibraryError (exn : string).

(** The two [logging.warning] calls. *)
Inductive event : Type :=
| WarnNoFeatures
| WarnDropped (all_na_cols : list string).

Definition M (A : Type) : Type := (list event * (error + A))%type.

Definition ret {A : Type} (x : A) : M A := ([], inr x).

Definition raise {A : Type} (e : error) : M A := ([], inl e).

Definition warning (ev : event) : M unit := ([ev], inr tt).

Definition bind {A B : Type} (c : M A) (k : A -> M B) : M B :=
  match c with
  | (log, inl e) => (log, inl e)
  | (log, inr x) => let (log', r) := k x in (log ++ log', r)
  end.

(** A library call that either returns or raises [exn]. *)
Definition call {A : Type} (exn : string) (r : option A) : M A :=
  match r with
  | Some x => ret x
  | None => raise (LibraryError exn)
  end.

Declare Scope monad_scope.
Delimit Scope monad_scope with monad.
Notation "x <- c ;; k" := (bind c (fun x => k))
  (at level 61, c at next level, right associativity) : monad_scope.
Notation "c ;; k" := (bind c (fun _ => k))
  (at level 61, right associativity) : monad_scope.

(* ================================================================= *)
(** ** The transformer *)

Section Transformer.

(** The float64 arithmetic of pandas and scikit-learn. *)
Variable np : FloatOps.

(** Numeric literals accepted by [pd.to_numeric]: the value of a text that
    reads as a number (an infinity for "inf"), [None] for any other. *)
Variable to_float : string -> float64.

(** Hash order of this run of the interpreter. *)
Variable h : Py.HashOrder.

(** [pd.to_numeric(errors="coerce")] on one cell. *)
Definition to_numeric (c : cell) : float64 :=
  match c with
  | Num x => Some x
  | Text s => to_float s
  | NA => None
  end.

(** [X.apply(pd.to_numeric, errors="coerce")]. *)
Definition apply_to_numeric (X : Frame cell) : Frame float64 :=
  map (fun cv => (fst cv, map to_numeric (snd cv))) X.

(** [required_cols - set(df.columns)]. *)
Definition missing_required (df : DataFrame) : list string :=
  Py.set_difference string_dec h
    (Py.set string_dec h ["weather"; "date"])
    (Py.set string_dec h (columns df)).

(** Lines 35-36: features and target. *)
Definition features (df : DataFrame) : Frame cell :=
  if 2 <? List.length (columns df)
  then drop df ["weather"; "date"]
  else [].

(** Lines 53-62: coercion, pruning, and the failure when nothing is
    left. *)
Definition coerce_and_prune (X : Frame cell) : M (Frame float64) :=
  (let X_numeric := apply_to_numeric X in
   let dropped := all_na_cols X_numeric in
   X_numeric <-
     match dropped with
     | [] => ret X_numeric
     | _ => warning (WarnDropped dropped) ;;
            ret (drop_labels X_numeric dropped)
     end ;;
   match X_numeric with
   | [] => raise NoUsableFeatures
   | _ => ret X_numeric
   end)%monad.

(** Lines 65-73: imputation, scaling and assembly. *)
Definition scale_and_assemble (X_numeric : Frame float64)
  (y_encoded : list nat) : M Processed :=
  (let X_numeric := fillna_mean np X_numeric in
   X_scaled <- call "ValueError"
                 (StandardScaler.fit_transform np (to_array X_numeric)) ;;
   let X_scaled := frame_of_array X_scaled (map fst X_numeric) in
   call "ValueError" (setitem X_scaled "weather" (Int64 y_encoded)))%monad.

Definition preprocess_data (df : DataFrame)
  : M (Processed * list (cell * nat)) :=
  (let df := drop_duplicates df in
   let missing := missing_required df in
   match missing with
   | _ :: _ => raise (SchemaError (Py.sorted String.ltb missing))
   | [] =>
       let X := features df in
       y <- call "KeyError" (getitem df "weather") ;;
       fitted <- call "TypeError" (LabelEncoder.fit_transform h y) ;;
       let label_encoder := fst fitted in
       let y_encoded := snd fitted in
       codes <- call "ValueError"
                  (LabelEncoder.transform label_encoder
                     (LabelEncoder.classes_ label_encoder)) ;;
       let label_mapping :=
         Py.dict cell_eq_dec
           (Py.zip (LabelEncoder.classes_ label_encoder) codes) in
       if empty X then
         warning WarnNoFeatures ;;
         ret ([("weather", Int64 y_encoded)], label_mapping)
       else
         X_numeric <- coerce_and_prune X ;;
         df_processed <- scale_and_assemble X_numeric y_encoded ;;
         ret (df_processed, label_mapping)
   end)%monad.

End Transformer.

(** A hash order and a literal grammar to run the transformer with: sets
    iterate backwards, and a literal is a run of decimal digits. *)
Definition reversing : Py.HashOrder :=
  {| Py.set_iter := fun A l => rev l;
     Py.set_iter_perm := fun A l => Permutation_sym (Permutation_rev l) |}.

Definition digit (a : ascii) : option nat :=
  let n := nat_of_ascii a in
  if (48 <=? n) && (n <=? 57) then Some (n - 48) else None.

Fixpoint digits (acc : nat) (s : string) : option nat :=
  match s with
  | EmptyString => Some acc
  | String a s' =>
      match digit a with
      | Some d => digits (10 * acc + d) s'
      | None => None
      end
  end.

Definition Qc_of_nat (n : nat) : Qc := Q2Qc (inject_Z (Z.of_nat n)).

Definition decimal (s : string) : float64 :=
  match s with
  | EmptyString => None
  | _ => option_map (fun n => Finite (Qc_of_nat n)) (digits 0 s)
  end.

Definition qc (n : Z) : Qc := Q2Qc (inject_Z n).

(** An arithmetic to run the examples with, in place of float64: sums,
    quotients and differences of rationals are taken without rounding, the
    square root is taken on numerator and denominator (so it is the root
    itself where that is rational), a column with an infinity has that
    infinity for mean, and any other operation on an infinity or on NaN
    gives NaN.  On the examples below every intermediate value is a small
    integer or a half, and float64 computes the same values. *)
Definition Qcsum (xs : list Qc) : Qc := fold_right Qcplus (Q2Qc 0) xs.

Fixpoint finite_values (vs : list float64) : option (list Qc) :=
  match vs with
  | [] => Some []
  | None :: vs' => finite_values vs'
  | Some (Finite x) :: vs' => option_map (cons x) (finite_values vs')
  | Some _ :: vs' => None
  end.

Definition rational_mean (vs : list float64) : float64 :=
  if existsb is_posinf vs then
    if existsb is_neginf vs then None else Some PosInf
  else if existsb is_neginf vs then Some NegInf
  else
    match finite_values vs with
    | Some (x :: xs) =>
        Some (Finite (Qcsum (x :: xs) / Qc_of_nat (List.length (x :: xs)))%Qc)
    | _ => None
    end.

Definition Qcsqrt (x : Qc) : Qc :=
  Q2Qc (Z.sqrt (Qnum x) # Pos.sqrt (Qden x)).

Definition rational_scale (vs : list float64) : float64 :=
  match finite_values vs, rational_mean vs with
  | Some xs, Some (Finite m) =>
      let var := (Qcsum (map (fun x => (x - m) * (x - m)) xs)
                  / Qc_of_nat (List.length xs))%Qc in
      let s := Qcsqrt var in
      Some (Finite (if Qc_eq_dec s (Q2Qc 0) then Q2Qc 1 else s))
  | _, _ => None
  end.

Definition rational_standardize (x : number) (m s : float64) : float64 :=
  match x, m, s with
  | Finite a, Some (Finite b), Some (Finite c) =>
      if Qc_eq_dec c (Q2Qc 0) then None
      else Some (Finite ((a - b) / c)%Qc)
  | _, _, _ => None
  end.

Definition rational_ops : FloatOps :=
  {| series_mean := rational_mean;
     fit_mean := rational_mean;
     fit_scale := rational_scale;
     standardize := rational_standardize |}.

(** The example of the specification: three rows, the last a duplicate. *)
Definition example_frame : DataFrame :=
  {| columns := ["date"; "weather"; "temp"];
     rows := [ [Text "2020-01-01"; Text "rain"; Num (qc 10)];
               [Text "2020-01-02"; Text "sun"; Num (qc 20)];
               [Text "2020-01-01"; Text "rain"; Num (qc 10)] ] |}.

(** Quantities the statements below speak about. *)

(** The target column of the de-duplicated table. *)
Definition target (df : DataFrame) : list cell :=
  match getitem (drop_duplicates df) "weather" with
  | Some y => y
  | None => []
  end.

(** The table passes the schema check and its target column can be sorted. *)
Definition accepted (df : DataFrame) : Prop :=
  In "weather" (columns df) /\ In "date" (columns df) /\
  LabelEncoder.mixed (target df) = false.

(** Required columns the table lacks, in alphabetical order. *)
Definition absent (df : DataFrame) : list string :=
  filter (fun c => negb (Py.mem string_dec c (columns df)))
         ["date"; "weather"].

(** Strict order of the cells, as a proposition. *)
Definition cell_lt (a b : cell) : Prop := cell_ltb a b = true.

(* ================================================================= *)
(** ** Closed forms and examples used in the statements *)

(** The classes of a target column and the code of a value, free of the
    hash order. *)
Definition classes_of (y : list cell) : list cell :=
  Py.sorted cell_ltb (nodup cell_eq_dec y).

Definition code_of (classes : list cell) (v : cell) : nat :=
  match Py.index cell_eq_dec v classes with
  | Some i => i
  | None => 0
  end.

(** The label mapping and the encoded target of a column, free of the
    hash order. *)
Definition mapping_of (y : list cell) : list (cell * nat) :=
  Py.zip (classes_of y) (seq 0 (List.length (classes_of y))).

Definition encoded (y : list cell) : list nat :=
  map (code_of (classes_of y)) y.

Definition warn_dropped (dropped : list string) : list event :=
  match dropped with
  | [] => []
  | _ => [WarnDropped dropped]
  end.

(** The feature matrix after coercion, the labels of its all-missing
    columns, and what is left of it after pruning. *)
Definition coerced (to_float : string -> float64) (df : DataFrame)
  : Frame float64 :=
  apply_to_numeric to_float (features (drop_duplicates df)).

Definition dropped (to_float : string -> float64) (df : DataFrame)
  : list string :=
  all_na_cols (coerced to_float df).

Definition retained (to_float : string -> float64) (df : DataFrame)
  : Frame float64 :=
  drop_labels (coerced to_float df) (dropped to_float df).

(** What the fitted scaler does to one column. *)
Definition scale_column (np : FloatOps) (col : list float64) : list float64 :=
  map (StandardScaler.scale_value np (fit_mean np col) (fit_scale np col))
      col.

(** One feature column after imputation, as the scaler sees it. *)
Definition imputed_column (np : FloatOps) (vs : list float64)
  : list float64 :=
  map (fun v => match v with Some x => Some x | None => mean np vs end) vs.

Definition scaled_features (np : FloatOps) (X : Frame float64) : Processed :=
  map (fun cv =>
         (fst cv, Float64 (scale_column np (imputed_column np (snd cv)))))
      X.

(** The scaler accepts the imputed columns: none holds an infinity. *)
Definition scalable (np : FloatOps) (X : Frame float64) : bool :=
  forallb (fun cv => forallb finite_or_nan (imputed_column np (snd cv))) X.

(** What a run returns, written without any set: the closed form of
    [preprocess_data]. *)
Definition outcome (np : FloatOps) (to_float : string -> float64)
  (df : DataFrame) : M (Processed * list (cell * nat)) :=
  match absent df with
  | _ :: _ => ([], inl (SchemaError (absent df)))
  | [] =>
      if LabelEncoder.mixed (target df) then
        ([], inl (LibraryError "TypeError"))
      else if empty (features (drop_duplicates df)) then
        ([WarnNoFeatures],
         inr ([("weather", Int64 (encoded (target df)))],
              mapping_of (target df)))
      else
        match retained to_float df with
        | [] => (warn_dropped (dropped to_float df), inl NoUsableFeatures)
        | K =>
            if scalable np K then
              (warn_dropped (dropped to_float df),
               inr (scaled_features np K
                      ++ [("weather", Int64 (encoded (target df)))],
                    mapping_of (target df)))
            else
              (warn_dropped (dropped to_float df),
               inl (LibraryError "ValueError"))
        end
  end.

(** [l] is [l'] with some elements left out, the others in their order. *)
Inductive subseq {A : Type} : list A -> list A -> Prop :=
| subseq_nil : subseq [] []
| subseq_keep (x : A) (l l' : list A) :
    subseq l l' -> subseq (x :: l) (x :: l')
| subseq_skip (x : A) (l l' : list A) : subseq l l' -> subseq l (x :: l').

Definition example_processed : Processed :=
  [("temp", Float64 [Some (Finite (qc (-1))); Some (Finite (qc 1))]);
   ("weather", Int64 [0; 1])].

Definition example_mapping : list (cell * nat) :=
  [(Text "rain", 0); (Text "sun", 1)].

(** A table with two gaps in a column of numerals (a text that is no
    number and an absent value) and a column of plain text. *)
Definition example_gaps : DataFrame :=
  {| columns := ["date"; "temp"; "note"; "weather"];
     rows := [ [Text "2020-01-01"; Text "18"; Text "cold"; Text "rain"];
               [Text "2020-01-02"; Text "12"; Text "mild"; Text "sun"];
               [Text "2020-01-03"; Text "unknown"; NA; Text "drizzle"];
               [Text "2020-01-04"; Text "12"; Text "mild"; Text "rain"];
               [Text "2020-01-05"; Text "14"; Text "cold"; Text "sun"];
               [Text "2020-01-06"; NA; Text "cold"; Text "sun"] ] |}.

(** The temperatures have mean 14; filled, they have variance 4. *)
Definition example_gaps_processed : Processed :=
  [("temp",
    Float64 [Some (Finite (qc 2)); Some (Finite (qc (-1)));
             Some (Finite (qc 0)); Some (Finite (qc (-1)));
             Some (Finite (qc 0)); Some (Finite (qc 0))]);
   ("weather", Int64 [1; 2; 0; 1; 2; 2])].

Definition example_gaps_mapping : list (cell * nat) :=
  [(Text "drizzle", 0); (Text "rain", 1); (Text "sun", 2)].



(** A header and no row: what [pd.read_csv] makes of a file that holds
    only the header line. *)
Definition header_only : DataFrame :=
  {| columns := ["date"; "weather"; "temp"]; rows := [] |}.

(** Two column-wise frames with the same labels whose columns hold the same
    values up to the order of the rows. *)
Definition similar {V : Type} (X X' : Frame V) : Prop :=
  Forall2 (fun cv cv' => fst cv = fst cv' /\ Permutation (snd cv) (snd cv'))
          X X'.

(* ================================================================= *)
(** ** The script around the transformer: paths, loading, saving, main *)

(** [os.path] on a POSIX system. *)
Module Posix.

Definition is_sep (c : ascii) : bool := Ascii.eqb c "/".

Definition starts_with_sep (s : string) : bool :=
  match s with
  | String c _ => is_sep c
  | EmptyString => false
  end.

Fixpoint ends_with_sep (s : string) : bool :=
  match s with
  | EmptyString => false
  | String c EmptyString => is_sep c
  | String _ r => ends_with_sep r
  end.

Fixpoint contains_sep (s : string) : bool :=
  match s with
  | EmptyString => false
  | String c r => is_sep c || contains_sep r
  end.

(** [os.path.join(a, b)]. *)
Definition join (a b : string) : string :=
  if starts_with_sep b then b
  else
    match a with
    | EmptyString => b
    | _ => if ends_with_sep a then (a ++ b)%string
           else (a ++ "/" ++ b)%string
    end.

(** [os.path.basename(p)]: what follows the last separator. *)
Fixpoint basename (p : string) : string :=
  match p with
  | EmptyString => EmptyString
  | String c r =>
      if contains_sep r then basename r
      else if is_sep c then r else p
  end.

(** [p[:p.rfind("/") + 1]]. *)
Fixpoint head (p : string) : string :=
  match p with
  | EmptyString => EmptyString
  | String c r =>
      if contains_sep r then String c (head r)
      else if is_sep c then String c EmptyString else EmptyString
  end.

Fixpoint all_sep (s : string) : bool :=
  match s with
  | EmptyString => true
  | String c r => is_sep c && all_sep r
  end.

(** [s.rstrip("/")]. *)
Fixpoint rstrip_sep (s : string) : string :=
  match s with
  | EmptyString => EmptyString
  | String c r =>
      match rstrip_sep r with
      | EmptyString => if is_sep c then EmptyString else String c EmptyString
      | r' => String c r'
      end
  end.

(** [os.path.dirname(p)]. *)
Definition dirname (p : string) : string :=
  let h := head p in
  match h with
  | EmptyString => h
  | _ => if all_sep h then h else rstrip_sep h
  end.

End Posix.

(** The exceptions the script can meet outside the transformer:
    [FileNotFoundError], and any other subclass of [Exception]; each
    carries the text [str(e)]. *)
Inductive exn : Type :=
| FileNotFoundError (msg : string)
| OtherException (msg : string).

Definition str_exn (e : exn) : string :=
  match e with
  | FileNotFoundError msg => msg
  | OtherException msg => msg
  end.

(** The result of [parse_args()]. *)
Record Namespace : Type := {
  input : option string;
  output_dir : string
}.

(** What a call of [main] leaves behind once the command line is parsed:
    the texts printed, one for each call of [print] (a text may hold line
    breaks), the warnings logged, the file system, and the exception that
    left [main], if any. *)
Record Run (FS : Type) : Type := {
  stdout : list string;
  stderr : list event;
  fs_after : FS;
  uncaught : option exn
}.

Arguments stdout {FS} _.
Arguments stderr {FS} _.
Arguments fs_after {FS} _.
Arguments uncaught {FS} _.

Definition string_of_nat (n : nat) : string :=
  DecimalString.NilZero.string_of_uint (Nat.to_uint n).

(** [repr] of a text without quotes, backslashes or control characters
    (here: a column label), and of a list of such texts. *)
Definition repr_str (s : string) : string := ("'" ++ s ++ "'")%string.

Definition repr_list (l : list string) : string :=
  ("[" ++ String.concat ", " (map repr_str l) ++ "]")%string.

(** [df.head()]: the first five rows. *)
Definition head_rows (p : Processed) : Processed :=
  map (fun cs =>
         (fst cs,
          match snd cs with
          | Float64 vs => Float64 (firstn 5 vs)
          | Int64 vs => Int64 (firstn 5 vs)
          end))
      p.

Definition output_name : string := "seattle_weather_processed.csv".

Section Script.

(** The file system and the calls that read or change it. *)
Variable FS : Type.
Variable path_exists : FS -> string -> bool.
Variable read_csv : FS -> string -> exn + DataFrame.
Variable makedirs : FS -> string -> FS * option exn.
Variable to_csv : FS -> Processed -> string -> FS * option exn.

Variable np : FloatOps.
Variable to_float : string -> float64.
Variable h : Py.HashOrder.

(** [__file__], [str] of a number, [str] of a frame, and the text of an
    exception raised inside a library call of the transformer. *)
Variable this_file : string.
Variable str_float : number -> string.
Variable show : Processed -> string.
Variable library_message : string -> string.

(** [parser.parse_args()] on the command line: the arguments, or the exit
    code of the [SystemExit] that argparse raises after printing its usage
    or help text. *)
Variable parse_args : list string -> nat + Namespace.

Definition load_data (fs : FS) (input_path : string) : exn + DataFrame :=
  if negb (path_exists fs input_path) then
    inl (FileNotFoundError
           ("File dataset tidak ditemukan: " ++ input_path)%string)
  else read_csv fs input_path.

Definition save_processed (fs : FS) (df_processed : Processed)
  (dir : string) : FS * (exn + string) :=
  match makedirs fs dir with
  | (fs1, Some e) => (fs1, inl e)
  | (fs1, None) =>
      let output_path := Posix.join dir output_name in
      match to_csv fs1 df_processed output_path with
      | (fs2, Some e) => (fs2, inl e)
      | (fs2, None) => (fs2, inr output_path)
      end
  end.

(** [str(e)] for a failure of the transformer. *)
Definition error_message (e : error) : string :=
  match e with
  | SchemaError missing =>
      ("Dataset tidak memiliki kolom yang diperlukan: "
         ++ repr_list missing)%string
  | NoUsableFeatures =>
      "Tidak ada kolom numerik yang tersisa untuk distandarisasi."
  | LibraryError exn => library_message exn
  end.

Definition str_cell (c : cell) : string :=
  match c with
  | Text s => s
  | Num x => str_float x
  | NA => "nan"
  end.

Definition mapping_line (kv : cell * nat) : string :=
  ("  - " ++ str_cell (fst kv) ++ ": " ++ string_of_nat (snd kv))%string.

Definition default_input : string :=
  Posix.join
    (Posix.join (Posix.dirname (Posix.dirname this_file))
                "Weather_datasets_raw")
    "seattle-weather.csv".

(** [args.input] after lines 109-112: an absent or empty value is replaced
    by the default. *)
Definition resolved_input (args : Namespace) : string :=
  match input args with
  | Some (String c s) => String c s
  | _ => default_input
  end.

(** Lines 108-140: [main] from the point where [parse_args()] has
    returned [args]. *)
Definition main_body (args : Namespace) (fs : FS) : Run FS :=
  let input_path := resolved_input args in
  match load_data fs input_path with
  | inl (FileNotFoundError msg) =>
      {| stdout := [("Error: " ++ msg)%string]; stderr := [];
         fs_after := fs; uncaught := None |}
  | inl e =>
      {| stdout := []; stderr := []; fs_after := fs; uncaught := Some e |}
  | inr df =>
      match preprocess_data np to_float h df with
      | (log, inl e) =>
          {| stdout := [("Preprocessing gagal: " ++ error_message e)%string];
             stderr := log; fs_after := fs; uncaught := None |}
      | (log, inr (df_processed, label_mapping)) =>
          match save_processed fs df_processed (output_dir args) with
          | (fs', inl e) =>
              {| stdout := [("Gagal menyimpan file: " ++ str_exn e)%string];
                 stderr := log; fs_after := fs'; uncaught := None |}
          | (fs', inr saved_path) =>
              {| stdout :=
                   ["Preprocessing selesai";
                    ("Input      : " ++ input_path)%string;
                    ("Output file: " ++ saved_path)%string;
                    "Label mapping (weather -> encoded):"]
                   ++ map mapping_line label_mapping
                   ++ [String (ascii_of_nat 10) " Preview output:";
                       show (head_rows df_processed)];
                 stderr := log; fs_after := fs'; uncaught := None |}
          end
      end
  end.

(** [main()]: [SystemExit] is not an [Exception] and no handler of [main]
    catches it; [inl code] stands for it. *)
Definition main (argv : list string) (fs : FS) : nat + Run FS :=
  match parse_args argv with
  | inl code => inl code
  | inr args => inr (main_body args fs)
  end.

End Script.

(** A file system to run the script on: the tables that can be read, by
    path, the directories made and the tables written. *)
Record toy_fs : Type := {
  readable : list (string * DataFrame);
  made : list string;
  written : list (string * Processed)
}.

Definition toy_exists (fs : toy_fs) (path : string) : bool :=
  match Py.dict_get string_dec (readable fs) path with
  | Some _ => true
  | None => false
  end.

Definition toy_read (fs : toy_fs) (path : string) : exn + DataFrame :=
  match Py.dict_get string_dec (readable fs) path with
  | Some df => inr df
  | None => inl (FileNotFoundError path)
  end.

Definition toy_makedirs (fs : toy_fs) (dir : string) : toy_fs * option exn :=
  match dir with
  | EmptyString =>
      (fs, Some (FileNotFoundError
                   "[Errno 2] No such file or directory: ''"))
  | _ => ({| readable := readable fs; made := dir :: made fs;
             written := written fs |}, None)
  end.

Definition toy_to_csv (fs : toy_fs) (p : Processed) (path : string)
  : toy_fs * option exn :=
  ({| readable := readable fs; made := made fs;
      written := (path, p) :: written fs |}, None).

Definition toy_main : Namespace -> toy_fs -> Run toy_fs :=
  main_body toy_fs toy_exists toy_read toy_makedirs toy_to_csv rational_ops
            decimal reversing "/repo/Preprocessing/automate_Irfan_Ziyadi_R.py"
            (fun _ => "?") (fun _ => "<frame>") (fun exn => exn).

Definition toy_disk : toy_fs :=
  {| readable := [("raw.csv", example_frame); ("bare.csv", header_only);
                  ("nodate.csv",
                   {| columns := ["weather"; "temp"];
                      rows := [[Text "rain"; Num (qc 10)]] |})];
     made := []; written := [] |}.

(* ================================================================= *)
(** * Properties *)

(** Two runs of an example are compared by computation; rationals are
    compared by value. *)
Ltac run_example :=
  vm_compute;
  repeat first
    [ reflexivity
    | match goal with
      | |- @eq Qc _ _ => apply Qc_is_canon; vm_compute; reflexivity
      end
    | progress f_equal ].

(** ** Lists, sets and sorting *)

Lemma mem_true_iff {A : Type} (dec : forall x y : A, {x = y} + {x <> y})
  (x : A) (l : list A) : Py.mem dec x l = true <-> In x l.
Proof.
  unfold Py.mem. destruct (in_dec dec x l); split; intros; auto; discriminate.
Qed.

Lemma mem_false_iff {A : Type} (dec : forall x y : A, {x = y} + {x <> y})
  (x : A) (l : list A) : Py.mem dec x l = false <-> ~ In x l.
Proof.
  unfold Py.mem. destruct (in_dec dec x l); split; intros; auto;
    try discriminate; contradiction.
Qed.

Lemma Permutation_in_iff {A : Type} (l l' : list A) (x : A) :
  Permutation l l' -> (In x l <-> In x l').
Proof.
  intros Hp. split; apply Permutation_in; [exact Hp | symmetry; exact Hp].
Qed.

Section SortFacts.
Context {A : Type}.
Variable ltb : A -> A -> bool.
Hypothesis ltb_irrefl : forall x, ltb x x = false.
Hypothesis ltb_trans :
  forall x y z, ltb x y = true -> ltb y z = true -> ltb x z = true.
Hypothesis ltb_total :
  forall x y, ltb x y = true \/ x = y \/ ltb y x = true.

Let lt (x y : A) : Prop := ltb x y = true.

Lemma insert_sorted_perm (x : A) (l : list A) :
  Permutation (Py.insert_sorted ltb x l) (x :: l).
Proof.
  induction l as [|y l IH]; simpl; auto.
  destruct (ltb y x); auto.
  rewrite IH. apply perm_swap.
Qed.

Lemma sorted_perm (l : list A) : Permutation (Py.sorted ltb l) l.
Proof.
  induction l as [|x l IH]; simpl; auto.
  rewrite insert_sorted_perm. auto.
Qed.

Lemma insert_sorted_strict (x : A) (l : list A) :
  ~ In x l -> StronglySorted lt l ->
  StronglySorted lt (Py.insert_sorted ltb x l).
Proof.
  intros Hx Hs. induction Hs as [|y l Hs IH Hy]; simpl.
  - repeat constructor.
  - destruct (ltb y x) eqn:E.
    + constructor.
      * apply IH. intro; apply Hx; now right.
      * apply Forall_forall. intros z Hz.
        apply (Permutation_in _ (insert_sorted_perm x l)) in Hz.
        destruct Hz as [<-|Hz]; [exact E|].
        rewrite Forall_forall in Hy. now apply Hy.
    + assert (Hxy : lt x y).
      { destruct (ltb_total x y) as [H|[H|H]]; auto.
        - exfalso. apply Hx. now left.
        - unfold lt. congruence. }
      constructor; [now constructor|].
      constructor; auto.
      rewrite Forall_forall in *. intros z Hz.
      eapply ltb_trans; eauto. now apply Hy.
Qed.

Lemma sorted_strict (l : list A) :
  NoDup l -> StronglySorted lt (Py.sorted ltb l).
Proof.
  induction 1 as [|x l Hx Hn IH]; simpl; [constructor|].
  apply insert_sorted_strict; auto.
  intro Hin. apply Hx. eapply Permutation_in; [apply sorted_perm|]. auto.
Qed.

Lemma strict_sorted_NoDup (l : list A) : StronglySorted lt l -> NoDup l.
Proof.
  induction 1 as [|x l Hs IH Hx]; constructor; auto.
  intro Hin. rewrite Forall_forall in Hx.
  specialize (Hx _ Hin). unfold lt in Hx. rewrite ltb_irrefl in Hx.
  discriminate.
Qed.

(** A strictly increasing list is determined by its elements. *)
Lemma strict_sorted_unique (l l' : list A) :
  StronglySorted lt l -> StronglySorted lt l' ->
  (forall x, In x l <-> In x l') -> l = l'.
Proof.
  intros Hl. revert l'.
  induction Hl as [|x l Hs IH Hx]; intros l' Hl' Hiff.
  - destruct l' as [|y l']; auto.
    exfalso. apply (proj2 (Hiff y)). now left.
  - destruct Hl' as [|y l' Hs' Hy].
    + exfalso. apply (proj1 (Hiff x)). now left.
    + rewrite Forall_forall in Hx, Hy.
      assert (Hxy : x = y).
      { destruct (proj1 (Hiff x) (or_introl eq_refl)) as [E|Hin1]; auto.
        destruct (proj2 (Hiff y) (or_introl eq_refl)) as [E|Hin2]; auto.
        specialize (Hy _ Hin1). specialize (Hx _ Hin2).
        unfold lt in *.
        pose proof (ltb_trans _ _ _ Hx Hy) as C.
        rewrite ltb_irrefl in C. discriminate. }
      subst y. f_equal. apply IH; auto.
      intros z; split; intros Hz.
      * destruct (proj1 (Hiff z) (or_intror Hz)) as [E|H']; auto.
        subst z. specialize (Hx _ Hz). unfold lt in Hx.
        rewrite ltb_irrefl in Hx. discriminate.
      * destruct (proj2 (Hiff z) (or_intror Hz)) as [E|H']; auto.
        subst z. specialize (Hy _ Hz). unfold lt in Hy.
        rewrite ltb_irrefl in Hy. discriminate.
Qed.

(** Sorting forgets the order in which a set is iterated. *)
Lemma sorted_set_iter (h : Py.HashOrder) (l : list A) :
  NoDup l -> Py.sorted ltb (Py.set_iter h A l) = Py.sorted ltb l.
Proof.
  intros Hn.
  pose proof (Py.set_iter_perm h A l) as Hp.
  apply strict_sorted_unique.
  - apply sorted_strict. eapply Permutation_NoDup; [symmetry; exact Hp|auto].
  - now apply sorted_strict.
  - intros x. split; intros Hx.
    + eapply Permutation_in; [symmetry; apply sorted_perm|].
      eapply Permutation_in; [exact Hp|].
      eapply Permutation_in; [apply sorted_perm|]. exact Hx.
    + eapply Permutation_in; [symmetry; apply sorted_perm|].
      eapply Permutation_in; [symmetry; exact Hp|].
      eapply Permutation_in; [apply sorted_perm|]. exact Hx.
Qed.

Lemma sorted_of_strict (l : list A) :
  StronglySorted lt l -> Py.sorted ltb l = l.
Proof.
  intros Hs. apply strict_sorted_unique; auto.
  - apply sorted_strict. now apply strict_sorted_NoDup.
  - intros x; split; intros Hx.
    + eapply Permutation_in; [apply sorted_perm|]. exact Hx.
    + eapply Permutation_in; [symmetry; apply sorted_perm|]. exact Hx.
Qed.
End SortFacts.

(** ** The orders on texts and cells *)

Lemma string_ltb_irrefl (s : string) : String.ltb s s = false.
Proof.
  unfold String.ltb.
  pose proof (proj2 (String_as_OT.cmp_eq s s) eq_refl) as E.
  unfold String_as_OT.cmp in E. now rewrite E.
Qed.

Lemma string_ltb_lt (s t : string) :
  String.ltb s t = true <-> String_as_OT.lt s t.
Proof.
  rewrite <- String_as_OT.cmp_lt. unfold String.ltb, String_as_OT.cmp.
  destruct (String.compare s t); split; intros; auto; discriminate.
Qed.

Lemma string_ltb_trans (s t u : string) :
  String.ltb s t = true -> String.ltb t u = true -> String.ltb s u = true.
Proof.
  rewrite !string_ltb_lt. apply String_as_OT.lt_trans.
Qed.

Lemma string_ltb_total (s t : string) :
  String.ltb s t = true \/ s = t \/ String.ltb t s = true.
Proof.
  unfold String.ltb.
  destruct (String.compare s t) eqn:E.
  - right; left. now apply String_as_OT.cmp_eq.
  - now left.
  - right; right. rewrite String.compare_antisym, E. reflexivity.
Qed.

Lemma Qcltb_lt (x y : Qc) : Qcltb x y = true <-> (x < y)%Qc.
Proof.
  rewrite Qclt_alt. unfold Qcltb.
  destruct (x ?= y)%Qc; split; intros; auto; discriminate.
Qed.

Lemma Qcltb_irrefl (x : Qc) : Qcltb x x = false.
Proof.
  destruct (Qcltb x x) eqn:E; auto.
  apply Qcltb_lt in E. now apply Qclt_not_eq in E.
Qed.

Lemma Qcltb_trans (x y z : Qc) :
  Qcltb x y = true -> Qcltb y z = true -> Qcltb x z = true.
Proof.
  rewrite !Qcltb_lt. apply Qclt_trans.
Qed.

Lemma Qcltb_total (x y : Qc) :
  Qcltb x y = true \/ x = y \/ Qcltb y x = true.
Proof.
  rewrite !Qcltb_lt. destruct (Qc_dec x y) as [[H|H]|H]; auto.
Qed.

Lemma number_ltb_irrefl (x : number) : number_ltb x x = false.
Proof.
  destruct x; simpl; auto using Qcltb_irrefl.
Qed.

Lemma number_ltb_trans (x y z : number) :
  number_ltb x y = true -> number_ltb y z = true -> number_ltb x z = true.
Proof.
  destruct x, y, z; simpl; try discriminate; auto.
  apply Qcltb_trans.
Qed.

Lemma number_ltb_total (x y : number) :
  number_ltb x y = true \/ x = y \/ number_ltb y x = true.
Proof.
  destruct x as [a| |], y as [b| |]; simpl; auto.
  destruct (Qcltb_total a b) as [H|[H|H]]; auto. subst; auto.
Qed.

Lemma cell_ltb_irrefl (a : cell) : cell_ltb a a = false.
Proof.
  destruct a; simpl; auto using number_ltb_irrefl, string_ltb_irrefl.
Qed.

Lemma cell_ltb_trans (a b c : cell) :
  cell_ltb a b = true -> cell_ltb b c = true -> cell_ltb a c = true.
Proof.
  destruct a, b, c; simpl; try discriminate; auto.
  - apply number_ltb_trans.
  - apply string_ltb_trans.
Qed.

Lemma cell_ltb_total (a b : cell) :
  cell_ltb a b = true \/ a = b \/ cell_ltb b a = true.
Proof.
  destruct a as [x|s|], b as [y|t|]; simpl; auto.
  - destruct (number_ltb_total x y) as [H|[H|H]]; auto. subst; auto.
  - destruct (string_ltb_total s t) as [H|[H|H]]; auto. subst; auto.
Qed.

(** ** De-duplication *)

Lemma keep_first_In (seen l : list row) (r : row) :
  In r (keep_first seen l) <-> In r l /\ ~ In r seen.
Proof.
  revert seen. induction l as [|x l IH]; intros seen; simpl.
  - tauto.
  - destruct (Py.mem row_eq_dec x seen) eqn:E.
    + apply mem_true_iff in E. rewrite IH. split.
      * intros [H1 H2]. auto.
      * intros [[->|H1] H2]; [contradiction|auto].
    + apply mem_false_iff in E. simpl. rewrite IH. simpl. split.
      * intros [->|[H1 H2]]; auto.
      * intros [[->|H1] H2]; auto.
        destruct (row_eq_dec x r); auto.
        right. split; auto. intros [H|H]; auto.
Qed.

Lemma keep_first_NoDup (seen l : list row) : NoDup (keep_first seen l).
Proof.
  revert seen. induction l as [|x l IH]; intros seen; simpl.
  - constructor.
  - destruct (Py.mem row_eq_dec x seen); auto.
    constructor; auto.
    rewrite keep_first_In. simpl. tauto.
Qed.

Lemma keep_first_fixed (seen l : list row) :
  NoDup l -> (forall r, In r l -> ~ In r seen) -> keep_first seen l = l.
Proof.
  intros Hn. revert seen.
  induction Hn as [|x l Hx Hn IH]; intros seen Hs; simpl; auto.
  destruct (Py.mem row_eq_dec x seen) eqn:E.
  - apply mem_true_iff in E. exfalso. apply (Hs x); simpl; auto.
  - f_equal. apply IH. intros r Hr [<-|H]; auto.
    apply (Hs r); simpl; auto.
Qed.

(** De-duplication keeps a table well formed. *)
Lemma drop_duplicates_wf (df : DataFrame) :
  wf_frame df -> wf_frame (drop_duplicates df).
Proof.
  intros [Hn Hr]. split; [exact Hn|]. simpl.
  rewrite Forall_forall in *. intros r H.
  apply keep_first_In in H. now apply Hr.
Qed.

(** The rows kept are those that do not occur among the rows before
    them. *)
Lemma keep_first_mask (pre seen l : list row) :
  (forall r, In r seen <-> In r pre) ->
  keep_first seen l =
  map snd
    (filter (fun ir => negb (Py.mem row_eq_dec (snd ir)
                               (firstn (fst ir) (pre ++ l))))
            (enumerate_from (List.length pre) l)).
Proof.
  revert pre seen. induction l as [|x l IH]; intros pre seen Hs; simpl; auto.
  rewrite firstn_app, Nat.sub_diag, firstn_all. simpl. rewrite app_nil_r.
  assert (Hl : S (List.length pre) = List.length (pre ++ [x])).
  { rewrite length_app. simpl. lia. }
  assert (Ha : pre ++ x :: l = (pre ++ [x]) ++ l).
  { now rewrite <- app_assoc. }
  destruct (Py.mem row_eq_dec x seen) eqn:E.
  - assert (E' : Py.mem row_eq_dec x pre = true).
    { apply mem_true_iff, Hs. now apply mem_true_iff in E. }
    rewrite E'. simpl. rewrite Hl, Ha. apply IH.
    intros r. rewrite in_app_iff, <- Hs. simpl. split; auto.
    intros [H|[<-|[]]]; auto. now apply mem_true_iff in E.
  - assert (E' : Py.mem row_eq_dec x pre = false).
    { apply mem_false_iff. rewrite <- Hs. now apply mem_false_iff in E. }
    rewrite E'. simpl. f_equal. rewrite Hl, Ha. apply IH.
    intros r. rewrite in_app_iff, <- Hs. simpl. tauto.
Qed.

(** C5. De-duplication keeps exactly the rows that do not occur among the
    rows before them (so every exact duplicate of an earlier row goes and
    each first occurrence stays), in their original order; the result has
    no two equal rows and the same set of rows; the header is untouched;
    and de-duplicating twice is the same as de-duplicating once. *)
Theorem drop_duplicates_keeps_first_occurrences (df : DataFrame) :
  columns (drop_duplicates df) = columns df /\
  rows (drop_duplicates df) =
    map snd
      (filter (fun ir => negb (Py.mem row_eq_dec (snd ir)
                                 (firstn (fst ir) (rows df))))
              (enumerate_from 0 (rows df))) /\
  NoDup (rows (drop_duplicates df)) /\
  (forall r, In r (rows (drop_duplicates df)) <-> In r (rows df)) /\
  drop_duplicates (drop_duplicates df) = drop_duplicates df.
Proof.
  unfold drop_duplicates; simpl. repeat split.
  - apply (keep_first_mask [] [] (rows df)). tauto.
  - apply keep_first_NoDup.
  - rewrite keep_first_In. tauto.
  - rewrite keep_first_In. simpl. tauto.
  - f_equal. apply keep_first_fixed.
    + apply keep_first_NoDup.
    + simpl. tauto.
Qed.

(** ** Schema validation *)

Lemma set_In {A : Type} (dec : forall x y : A, {x = y} + {x <> y})
  (h : Py.HashOrder) (l : list A) (x : A) :
  In x (Py.set dec h l) <-> In x l.
Proof.
  unfold Py.set. rewrite <- (nodup_In dec l x).
  split; apply Permutation_in;
    [apply Py.set_iter_perm | symmetry; apply Py.set_iter_perm].
Qed.

Lemma missing_required_In (h : Py.HashOrder) (df : DataFrame) (c : string) :
  In c (missing_required h df) <->
  (c = "weather" \/ c = "date") /\ ~ In c (columns df).
Proof.
  unfold missing_required, Py.set_difference.
  rewrite (Permutation_in_iff _ _ _ (Py.set_iter_perm h _ _)).
  rewrite filter_In, set_In, negb_true_iff, mem_false_iff, set_In.
  simpl. intuition.
Qed.

Lemma missing_required_NoDup (h : Py.HashOrder) (df : DataFrame) :
  NoDup (missing_required h df).
Proof.
  unfold missing_required, Py.set_difference.
  eapply Permutation_NoDup; [symmetry; apply Py.set_iter_perm|].
  apply NoDup_filter. unfold Py.set.
  eapply Permutation_NoDup; [symmetry; apply Py.set_iter_perm|].
  apply NoDup_nodup.
Qed.

Lemma absent_In (df : DataFrame) (c : string) :
  In c (absent df) <-> (c = "weather" \/ c = "date") /\ ~ In c (columns df).
Proof.
  unfold absent. rewrite filter_In, negb_true_iff, mem_false_iff.
  simpl. intuition.
Qed.

Lemma absent_sorted (df : DataFrame) :
  StronglySorted (fun s t => String.ltb s t = true) (absent df).
Proof.
  unfold absent. simpl.
  destruct (negb _), (negb _); repeat constructor.
Qed.

Lemma sorted_missing_required (h : Py.HashOrder) (df : DataFrame) :
  Py.sorted String.ltb (missing_required h df) = absent df.
Proof.
  apply (strict_sorted_unique String.ltb string_ltb_irrefl string_ltb_trans).
  - apply (sorted_strict String.ltb string_ltb_trans string_ltb_total).
    apply missing_required_NoDup.
  - apply absent_sorted.
  - intros c. rewrite absent_In, <- (missing_required_In h).
    apply Permutation_in_iff. apply sorted_perm.
Qed.

Lemma missing_required_nil (h : Py.HashOrder) (df : DataFrame) :
  missing_required h df = [] <->
  In "weather" (columns df) /\ In "date" (columns df).
Proof.
  split.
  - intros E. split.
    + destruct (in_dec string_dec "weather" (columns df)) as [H|H]; auto.
      exfalso. assert (H' : In "weather" (missing_required h df)).
      { apply missing_required_In. auto. }
      rewrite E in H'. exact H'.
    + destruct (in_dec string_dec "date" (columns df)) as [H|H]; auto.
      exfalso. assert (H' : In "date" (missing_required h df)).
      { apply missing_required_In. auto. }
      rewrite E in H'. exact H'.
  - intros [Hw Hd]. destruct (missing_required h df) as [|c l] eqn:E; auto.
    exfalso. assert (H' : In c (missing_required h df)).
    { rewrite E. now left. }
    apply missing_required_In in H'. destruct H' as [[->| ->] H']; auto.
Qed.

Lemma absent_nil (df : DataFrame) :
  absent df = [] <-> In "weather" (columns df) /\ In "date" (columns df).
Proof.
  split.
  - intros E. split.
    + destruct (in_dec string_dec "weather" (columns df)) as [H|H]; auto.
      exfalso. assert (H' : In "weather" (absent df)).
      { apply absent_In. auto. }
      rewrite E in H'. exact H'.
    + destruct (in_dec string_dec "date" (columns df)) as [H|H]; auto.
      exfalso. assert (H' : In "date" (absent df)).
      { apply absent_In. auto. }
      rewrite E in H'. exact H'.
  - intros [Hw Hd]. destruct (absent df) as [|c l] eqn:E; auto.
    exfalso. assert (H' : In c (absent df)).
    { rewrite E. now left. }
    apply absent_In in H'. destruct H' as [[->| ->] H']; auto.
Qed.

(** The run on a table that lacks a required column. *)
Lemma preprocess_schema_error (np : FloatOps) (to_float : string -> float64)
  (h : Py.HashOrder) (df : DataFrame) :
  absent df <> [] ->
  preprocess_data np to_float h df = ([], inl (SchemaError (absent df))).
Proof.
  intros Ha. unfold preprocess_data.
  destruct (missing_required h (drop_duplicates df)) as [|c l] eqn:E.
  - exfalso. apply Ha. apply absent_nil.
    apply missing_required_nil in E. exact E.
  - rewrite <- E, sorted_missing_required. reflexivity.
Qed.

(** ** Label encoding *)

Lemma unique_classes_of (h : Py.HashOrder) (y : list cell) :
  LabelEncoder.unique h y = classes_of y.
Proof.
  unfold LabelEncoder.unique, Py.set, classes_of.
  apply (sorted_set_iter cell_ltb cell_ltb_irrefl cell_ltb_trans
           cell_ltb_total).
  apply NoDup_nodup.
Qed.

Lemma classes_of_In (y : list cell) (v : cell) :
  In v (classes_of y) <-> In v y.
Proof.
  unfold classes_of. rewrite <- (nodup_In cell_eq_dec y v).
  apply Permutation_in_iff, sorted_perm.
Qed.

Lemma classes_of_sorted (y : list cell) :
  StronglySorted cell_lt (classes_of y).
Proof.
  apply (sorted_strict cell_ltb cell_ltb_trans cell_ltb_total).
  apply NoDup_nodup.
Qed.

Lemma classes_of_NoDup (y : list cell) : NoDup (classes_of y).
Proof.
  apply (strict_sorted_NoDup cell_ltb cell_ltb_irrefl).
  apply classes_of_sorted.
Qed.

Lemma classes_of_length (y : list cell) :
  List.length (classes_of y) = List.length (nodup cell_eq_dec y).
Proof.
  apply Permutation_length, sorted_perm.
Qed.

Section IndexFacts.
Context {A : Type}.
Variable dec : forall x y : A, {x = y} + {x <> y}.

Lemma index_Some (x : A) (l : list A) :
  In x l -> exists i, Py.index dec x l = Some i.
Proof.
  induction l as [|y l IH]; simpl; [tauto|].
  intros H. destruct (dec x y) as [E|E]; eauto.
  destruct H as [H|H]; [congruence|].
  destruct (IH H) as [i ->]. simpl. eauto.
Qed.

Lemma index_nth_error (x : A) (l : list A) (i : nat) :
  Py.index dec x l = Some i -> nth_error l i = Some x.
Proof.
  revert i. induction l as [|y l IH]; simpl; intros i; [discriminate|].
  destruct (dec x y) as [E|E].
  - intros [= <-]. simpl. congruence.
  - destruct (Py.index dec x l) as [j|]; simpl; [|discriminate].
    intros [= <-]. simpl. now apply IH.
Qed.

Lemma index_None (x : A) (l : list A) :
  Py.index dec x l = None -> ~ In x l.
Proof.
  intros E H. destruct (index_Some x l H) as [i Hi]. congruence.
Qed.

Lemma index_app_fresh (pre : list A) (x : A) (suf : list A) :
  ~ In x pre -> Py.index dec x (pre ++ x :: suf) = Some (List.length pre).
Proof.
  induction pre as [|y pre IH]; simpl; intros H.
  - destruct (dec x x); congruence.
  - destruct (dec x y) as [E|E].
    + exfalso. apply H. auto.
    + rewrite IH; auto.
Qed.

Lemma NoDup_nth_error_index (l : list A) (i : nat) (x : A) :
  NoDup l -> nth_error l i = Some x -> Py.index dec x l = Some i.
Proof.
  intros Hn. revert i. induction Hn as [|y l Hy Hn IH]; intros i; simpl.
  - destruct i; discriminate.
  - destruct i as [|i]; simpl.
    + intros [= ->]. destruct (dec x x); congruence.
    + intros Hi. destruct (dec x y) as [E|E].
      * subst. exfalso. apply Hy. eapply nth_error_In; eauto.
      * now rewrite (IH _ Hi).
Qed.

Lemma dict_get_zip_index {V : Type} (l : list A) (vs : list V) (x : A) (i : nat) :
  List.length l = List.length vs ->
  Py.index dec x l = Some i ->
  Py.dict_get dec (Py.zip l vs) x = nth_error vs i.
Proof.
  revert vs i. induction l as [|y l IH]; intros vs i Hl; simpl;
    [discriminate|].
  destruct vs as [|v vs]; [discriminate|]. simpl in *.
  destruct (dec x y) as [E|E].
  - now intros [= <-].
  - destruct (Py.index dec x l) as [j|] eqn:Ej; simpl; [|discriminate].
    intros [= <-]. simpl. apply IH; auto.
Qed.

Lemma dict_set_fresh {V : Type} (d : list (A * V)) (k : A) (v : V) :
  ~ In k (map fst d) -> Py.dict_set dec d k v = d ++ [(k, v)].
Proof.
  induction d as [|[k' v'] d IH]; simpl; intros H; auto.
  destruct (dec k k') as [E|E].
  - exfalso. apply H. auto.
  - f_equal. apply IH. tauto.
Qed.

Lemma dict_fold_fresh {V : Type} (pairs acc : list (A * V)) :
  NoDup (map fst (acc ++ pairs)) ->
  fold_left (fun d kv => Py.dict_set dec d (fst kv) (snd kv)) pairs acc
  = acc ++ pairs.
Proof.
  revert acc. induction pairs as [|[k v] pairs IH]; intros acc Hn; simpl.
  - now rewrite app_nil_r.
  - rewrite dict_set_fresh.
    + rewrite IH; rewrite <- app_assoc; auto.
    + rewrite map_app in Hn. simpl in Hn.
      apply NoDup_remove_2 in Hn. rewrite in_app_iff in Hn. tauto.
Qed.

(** A dict built from pairs whose keys are distinct is the list of the
    pairs. *)
Lemma dict_distinct_keys {V : Type} (pairs : list (A * V)) :
  NoDup (map fst pairs) -> Py.dict dec pairs = pairs.
Proof.
  intros Hn. unfold Py.dict. now rewrite dict_fold_fresh.
Qed.
End IndexFacts.

Lemma zip_fst {A B : Type} (l : list A) (l' : list B) :
  List.length l = List.length l' -> map fst (Py.zip l l') = l.
Proof.
  revert l'. induction l as [|x l IH]; intros [|y l']; simpl; auto;
    try discriminate.
  intros [= H]. now rewrite IH.
Qed.

Lemma zip_snd {A B : Type} (l : list A) (l' : list B) :
  List.length l = List.length l' -> map snd (Py.zip l l') = l'.
Proof.
  revert l'. induction l as [|x l IH]; intros [|y l']; simpl; auto;
    try discriminate.
  intros [= H]. now rewrite IH.
Qed.

Lemma encode_incl (classes y : list cell) :
  incl y classes ->
  LabelEncoder.encode classes y = Some (map (code_of classes) y).
Proof.
  induction y as [|v y IH]; simpl; intros Hi; auto.
  destruct (index_Some cell_eq_dec v classes) as [i Hv].
  { apply Hi. now left. }
  unfold code_of at 1. rewrite Hv, IH; auto.
  intros x Hx. apply Hi. now right.
Qed.

Lemma code_of_suffix (pre suf : list cell) :
  NoDup (pre ++ suf) ->
  map (code_of (pre ++ suf)) suf = seq (List.length pre) (List.length suf).
Proof.
  revert pre. induction suf as [|x suf IH]; intros pre Hn; simpl; auto.
  f_equal.
  - unfold code_of. rewrite index_app_fresh; auto.
    apply NoDup_remove_2 in Hn. rewrite in_app_iff in Hn. tauto.
  - assert (E : pre ++ x :: suf = (pre ++ [x]) ++ suf)
      by now rewrite <- app_assoc.
    rewrite E. rewrite IH.
    + rewrite length_app. simpl. f_equal. lia.
    + now rewrite <- E.
Qed.

Lemma code_of_classes (classes : list cell) :
  NoDup classes ->
  map (code_of classes) classes = seq 0 (List.length classes).
Proof.
  intros Hn. apply (code_of_suffix [] classes Hn).
Qed.

Lemma fit_transform_closed (h : Py.HashOrder) (y : list cell) :
  LabelEncoder.mixed y = false ->
  LabelEncoder.fit_transform h y =
  Some ({| LabelEncoder.classes_ := classes_of y |}, encoded y).
Proof.
  intros Hm. unfold LabelEncoder.fit_transform. rewrite Hm.
  rewrite unique_classes_of, encode_incl.
  - reflexivity.
  - intros v Hv. now apply classes_of_In.
Qed.

Lemma transform_classes (y : list cell) :
  LabelEncoder.transform {| LabelEncoder.classes_ := classes_of y |}
    (classes_of y)
  = Some (seq 0 (List.length (classes_of y))).
Proof.
  unfold LabelEncoder.transform. simpl.
  rewrite encode_incl by apply incl_refl.
  now rewrite code_of_classes by apply classes_of_NoDup.
Qed.

Lemma label_mapping_closed (y : list cell) :
  Py.dict cell_eq_dec
    (Py.zip (classes_of y) (seq 0 (List.length (classes_of y))))
  = mapping_of y.
Proof.
  unfold mapping_of. apply dict_distinct_keys.
  rewrite zip_fst by now rewrite length_seq.
  apply classes_of_NoDup.
Qed.

(** ** Frames *)

Lemma bind_ret {A B : Type} (x : A) (k : A -> M B) : bind (ret x) k = k x.
Proof.
  unfold bind, ret. now destruct (k x).
Qed.

Lemma drop_lengths (df : DataFrame) (labels : list string) :
  Forall (fun cv => List.length (snd cv) = List.length (rows df))
         (drop df labels).
Proof.
  unfold drop. apply Forall_forall. intros cv Hcv.
  apply in_map_iff in Hcv. destruct Hcv as [jc [<- _]]. simpl.
  unfold column_at. apply length_map.
Qed.

Lemma drop_labels_out (df : DataFrame) (labels : list string) (c : string) :
  In c (map fst (drop df labels)) -> ~ In c labels.
Proof.
  unfold drop. rewrite map_map. simpl. intros H.
  apply in_map_iff in H. destruct H as [jc [<- H]].
  apply filter_In in H. destruct H as [_ H].
  now apply negb_true_iff, mem_false_iff in H.
Qed.

Lemma features_lengths (df : DataFrame) :
  Forall (fun cv => List.length (snd cv) = List.length (rows df))
         (features df).
Proof.
  unfold features. destruct (2 <? _); [apply drop_lengths|constructor].
Qed.

Lemma features_not_weather (df : DataFrame) :
  ~ In "weather" (map fst (features df)).
Proof.
  unfold features. destruct (2 <? _); simpl; auto.
  intros H. apply drop_labels_out in H. apply H. simpl. auto.
Qed.

Lemma empty_false {V : Type} (X : Frame V) (n : nat) :
  Forall (fun cv => List.length (snd cv) = n) X ->
  (empty X = false <-> X <> [] /\ n <> 0).
Proof.
  intros Hl. destruct X as [|[c vs] X]; simpl.
  - split; [discriminate|tauto].
  - inversion Hl as [|? ? Hvs _]; subst. simpl in *.
    destruct vs; simpl; split; try discriminate; try tauto.
    intros _. split; discriminate.
Qed.

Lemma getitem_target (df : DataFrame) :
  In "weather" (columns df) ->
  getitem (drop_duplicates df) "weather" = Some (target df).
Proof.
  intros Hw. unfold target, getitem. simpl.
  destruct (index_Some string_dec "weather" (columns df) Hw) as [j ->].
  reflexivity.
Qed.

Lemma target_length (df : DataFrame) :
  In "weather" (columns df) ->
  List.length (target df) = List.length (rows (drop_duplicates df)).
Proof.
  intros Hw. unfold target, getitem. simpl.
  destruct (index_Some string_dec "weather" (columns df) Hw) as [j ->].
  simpl. unfold column_at. apply length_map.
Qed.

Lemma encoded_length (y : list cell) :
  List.length (encoded y) = List.length y.
Proof.
  apply length_map.
Qed.

(** ** Coercion and pruning *)

Lemma drop_labels_nil {V : Type} (X : Frame V) : drop_labels X [] = X.
Proof.
  unfold drop_labels. induction X as [|cv X IH]; [reflexivity|].
  cbn [filter].
  replace (Py.mem string_dec (fst cv) []) with false by reflexivity.
  cbn [negb]. now rewrite IH.
Qed.

Lemma coerce_and_prune_closed (to_float : string -> float64)
  (X : Frame cell) :
  let Xn := apply_to_numeric to_float X in
  coerce_and_prune to_float X =
  (warn_dropped (all_na_cols Xn),
   match drop_labels Xn (all_na_cols Xn) with
   | [] => inl NoUsableFeatures
   | K => inr K
   end).
Proof.
  intros Xn. unfold coerce_and_prune. fold Xn.
  destruct (all_na_cols Xn) as [|c D] eqn:E.
  - rewrite bind_ret, drop_labels_nil. simpl.
    destruct Xn; reflexivity.
  - simpl. destruct (drop_labels Xn (c :: D)); reflexivity.
Qed.

(** ** Scaling and assembly *)

Lemma transform_fit (np : FloatOps) (X : list (list float64)) :
  StandardScaler.transform np
    {| StandardScaler.mean_ := map (fit_mean np) X;
       StandardScaler.scale_ := map (fit_scale np) X |} X
  = map (scale_column np) X.
Proof.
  unfold StandardScaler.transform. simpl.
  induction X as [|col X IH]; simpl; auto.
  now rewrite IH.
Qed.

Lemma fit_transform_columns (np : FloatOps) (X : list (list float64)) :
  StandardScaler.fit_transform np X =
  if StandardScaler.all_finite X then Some (map (scale_column np) X)
  else None.
Proof.
  unfold StandardScaler.fit_transform, StandardScaler.fit.
  destruct (StandardScaler.all_finite X); [|reflexivity].
  cbn [option_map]. now rewrite transform_fit.
Qed.

Lemma all_finite_scalable (np : FloatOps) (X : Frame float64) :
  StandardScaler.all_finite (to_array (fillna_mean np X)) = scalable np X.
Proof.
  unfold StandardScaler.all_finite, to_array, fillna_mean, scalable,
    imputed_column.
  induction X as [|[c vs] X IH]; simpl; auto.
  now rewrite IH.
Qed.

Lemma scaled_frame (np : FloatOps) (X : Frame float64) :
  frame_of_array
    (map (scale_column np) (to_array (fillna_mean np X)))
    (map fst (fillna_mean np X))
  = scaled_features np X.
Proof.
  unfold frame_of_array, to_array, fillna_mean, scaled_features,
    imputed_column.
  induction X as [|[c vs] X IH]; simpl; auto.
  now rewrite IH.
Qed.

Lemma replace_or_append_fresh (p : Processed) (label : string) (s : series) :
  ~ In label (map fst p) -> replace_or_append p label s = p ++ [(label, s)].
Proof.
  induction p as [|[c s'] p IH]; simpl; intros H; auto.
  destruct (string_dec label c) as [E|E].
  - exfalso. apply H. auto.
  - f_equal. apply IH. tauto.
Qed.

Lemma scaled_features_labels (np : FloatOps) (X : Frame float64) :
  map fst (scaled_features np X) = map fst X.
Proof.
  unfold scaled_features. rewrite map_map. reflexivity.
Qed.

Lemma scale_column_length (np : FloatOps) (col : list float64) :
  List.length (scale_column np col) = List.length col.
Proof.
  apply length_map.
Qed.

Lemma imputed_column_length (np : FloatOps) (vs : list float64) :
  List.length (imputed_column np vs) = List.length vs.
Proof.
  unfold imputed_column. now rewrite !length_map.
Qed.

Lemma scale_and_assemble_closed (np : FloatOps) (X : Frame float64)
  (y : list nat) :
  X <> [] ->
  Forall (fun cv => List.length (snd cv) = List.length y) X ->
  ~ In "weather" (map fst X) ->
  scale_and_assemble np X y =
  if scalable np X then
    ([], inr (scaled_features np X ++ [("weather", Int64 y)]))
  else ([], inl (LibraryError "ValueError")).
Proof.
  intros Hne Hl Hw. unfold scale_and_assemble.
  rewrite fit_transform_columns, all_finite_scalable.
  destruct (scalable np X); [|reflexivity].
  cbn [call]. rewrite bind_ret, scaled_frame. unfold setitem.
  destruct X as [|[c vs] X]; [congruence|].
  inversion Hl as [|? ? Hvs _]; subst. simpl in Hvs.
  simpl scaled_features. cbv beta iota.
  assert (E : Nat.eqb (series_length (Int64 y))
                (nrows ((c, Float64 (scale_column np (imputed_column np vs)))
                          :: scaled_features np X)) = true).
  { simpl. rewrite scale_column_length, imputed_column_length, Hvs.
    apply Nat.eqb_refl. }
  rewrite E. rewrite replace_or_append_fresh.
  - reflexivity.
  - change (~ In "weather" (map fst (scaled_features np ((c, vs) :: X)))).
    now rewrite scaled_features_labels.
Qed.

Lemma coerced_lengths (to_float : string -> float64) (df : DataFrame) :
  Forall (fun cv => List.length (snd cv)
                    = List.length (rows (drop_duplicates df)))
         (coerced to_float df).
Proof.
  unfold coerced, apply_to_numeric. apply Forall_map. simpl.
  eapply Forall_impl; [|apply features_lengths].
  intros cv H. now rewrite length_map.
Qed.

Lemma coerced_labels (to_float : string -> float64) (df : DataFrame) :
  map fst (coerced to_float df) = map fst (features (drop_duplicates df)).
Proof.
  unfold coerced, apply_to_numeric. now rewrite map_map.
Qed.

Lemma retained_incl (to_float : string -> float64) (df : DataFrame) :
  incl (retained to_float df) (coerced to_float df).
Proof.
  unfold retained, drop_labels. intros cv H.
  apply filter_In in H. tauto.
Qed.

Lemma retained_lengths (to_float : string -> float64) (df : DataFrame) :
  Forall (fun cv => List.length (snd cv)
                    = List.length (rows (drop_duplicates df)))
         (retained to_float df).
Proof.
  apply Forall_forall. intros cv H. apply retained_incl in H.
  pose proof (coerced_lengths to_float df) as Hl.
  rewrite Forall_forall in Hl. now apply Hl.
Qed.

Lemma retained_not_weather (to_float : string -> float64)
  (df : DataFrame) :
  ~ In "weather" (map fst (retained to_float df)).
Proof.
  intros H. apply in_map_iff in H. destruct H as [cv [E H]].
  apply retained_incl in H.
  apply (features_not_weather (drop_duplicates df)).
  rewrite <- coerced_labels with (to_float := to_float), <- E.
  now apply in_map.
Qed.

(** ** The four ways a run on an accepted table can go *)

Section Runs.
Variable np : FloatOps.
Variable to_float : string -> float64.
Variable h : Py.HashOrder.
Variable df : DataFrame.

Lemma preprocess_type_error :
  In "weather" (columns df) -> In "date" (columns df) ->
  LabelEncoder.mixed (target df) = true ->
  preprocess_data np to_float h df = ([], inl (LibraryError "TypeError")).
Proof.
  intros Hw Hd Hm. unfold preprocess_data.
  rewrite (proj2 (missing_required_nil h (drop_duplicates df)))
    by (simpl; auto).
  rewrite getitem_target by auto. simpl call at 1. rewrite bind_ret.
  unfold LabelEncoder.fit_transform. rewrite Hm. reflexivity.
Qed.

Lemma preprocess_encoded :
  accepted df ->
  preprocess_data np to_float h df =
  if empty (features (drop_duplicates df)) then
    ([WarnNoFeatures],
     inr ([("weather", Int64 (encoded (target df)))],
          mapping_of (target df)))
  else
    bind (coerce_and_prune to_float (features (drop_duplicates df)))
      (fun X_numeric =>
         bind (scale_and_assemble np X_numeric (encoded (target df)))
           (fun df_processed =>
              ret (df_processed, mapping_of (target df)))).
Proof.
  intros (Hw & Hd & Hm). unfold preprocess_data.
  rewrite (proj2 (missing_required_nil h (drop_duplicates df)))
    by (simpl; auto).
  rewrite getitem_target by auto. simpl call at 1. rewrite bind_ret.
  rewrite fit_transform_closed by auto. simpl call at 1.
  rewrite bind_ret. cbv beta. simpl fst. simpl snd.
  unfold LabelEncoder.classes_ at 1.
  rewrite transform_classes. simpl call at 1. rewrite bind_ret.
  simpl LabelEncoder.classes_. rewrite label_mapping_closed.
  destruct (empty _); reflexivity.
Qed.

Lemma preprocess_degenerate :
  accepted df ->
  empty (features (drop_duplicates df)) = true ->
  preprocess_data np to_float h df =
  ([WarnNoFeatures],
   inr ([("weather", Int64 (encoded (target df)))],
        mapping_of (target df))).
Proof.
  intros Ha He. rewrite preprocess_encoded by auto.
  now rewrite He.
Qed.

Lemma preprocess_no_usable_features :
  accepted df ->
  empty (features (drop_duplicates df)) = false ->
  retained to_float df = [] ->
  preprocess_data np to_float h df =
  (warn_dropped (dropped to_float df), inl NoUsableFeatures).
Proof.
  intros Ha He Hr. rewrite preprocess_encoded by auto.
  rewrite He, coerce_and_prune_closed.
  fold (coerced to_float df). fold (dropped to_float df).
  fold (retained to_float df). rewrite Hr. reflexivity.
Qed.

Lemma preprocess_scaling :
  accepted df ->
  empty (features (drop_duplicates df)) = false ->
  retained to_float df <> [] ->
  preprocess_data np to_float h df =
  if scalable np (retained to_float df) then
    (warn_dropped (dropped to_float df),
     inr (scaled_features np (retained to_float df)
            ++ [("weather", Int64 (encoded (target df)))],
          mapping_of (target df)))
  else
    (warn_dropped (dropped to_float df), inl (LibraryError "ValueError")).
Proof.
  intros Ha He Hr. rewrite preprocess_encoded by auto.
  rewrite He, coerce_and_prune_closed.
  fold (coerced to_float df). fold (dropped to_float df).
  fold (retained to_float df).
  destruct (retained to_float df) as [|cv K] eqn:E; [congruence|].
  rewrite <- E. unfold bind at 1.
  rewrite scale_and_assemble_closed.
  - destruct (scalable np (retained to_float df)); simpl;
      now rewrite ?app_nil_r.
  - now rewrite E.
  - rewrite encoded_length, target_length by apply Ha.
    apply retained_lengths.
  - apply retained_not_weather.
Qed.
End Runs.

(** ** The run without the hash order *)

Lemma preprocess_outcome (np : FloatOps) (to_float : string -> float64)
  (h : Py.HashOrder) (df : DataFrame) :
  preprocess_data np to_float h df = outcome np to_float df.
Proof.
  unfold outcome.
  destruct (absent df) as [|c l] eqn:Ea.
  - apply absent_nil in Ea. destruct Ea as [Hw Hd].
    destruct (LabelEncoder.mixed (target df)) eqn:Em.
    + now apply preprocess_type_error.
    + assert (Ha : accepted df) by (repeat split; auto).
      destruct (empty (features (drop_duplicates df))) eqn:Ee.
      * now apply preprocess_degenerate.
      * destruct (retained to_float df) as [|cv K] eqn:Er.
        -- now apply preprocess_no_usable_features.
        -- rewrite <- Er. apply preprocess_scaling; auto. congruence.
  - rewrite <- Ea. apply preprocess_schema_error. congruence.
Qed.

Lemma success_accepted (np : FloatOps)
  (to_float : string -> float64) (h : Py.HashOrder)
  (df : DataFrame) (log : list event) (r : Processed * list (cell * nat)) :
  preprocess_data np to_float h df = (log, inr r) -> accepted df.
Proof.
  rewrite preprocess_outcome. unfold outcome.
  destruct (absent df) as [|c l] eqn:Ea; [|discriminate].
  apply absent_nil in Ea. destruct Ea as [Hw Hd].
  destruct (LabelEncoder.mixed (target df)) eqn:Em; [discriminate|].
  intros _. repeat split; auto.
Qed.

Lemma success_outputs (np : FloatOps)
  (to_float : string -> float64) (h : Py.HashOrder)
  (df : DataFrame) (log : list event) (p : Processed)
  (m : list (cell * nat)) :
  preprocess_data np to_float h df = (log, inr (p, m)) ->
  m = mapping_of (target df) /\
  exists fs, p = fs ++ [("weather", Int64 (encoded (target df)))].
Proof.
  rewrite preprocess_outcome. unfold outcome.
  destruct (absent df) as [|c l] eqn:Ea; [|discriminate].
  destruct (LabelEncoder.mixed (target df)) eqn:Em; [discriminate|].
  destruct (empty (features (drop_duplicates df))) eqn:Ee.
  - intros [= _ <- <-]. split; auto. now exists [].
  - destruct (retained to_float df) as [|cv K] eqn:Er; [discriminate|].
    destruct (scalable np (cv :: K)); [|discriminate].
    intros [= _ <- <-]. split; [reflexivity|].
    exists (scaled_features np (cv :: K)). reflexivity.
Qed.

Lemma success_cases (np : FloatOps) (to_float : string -> float64)
  (h : Py.HashOrder) (df : DataFrame) (log : list event) (p : Processed)
  (m : list (cell * nat)) :
  preprocess_data np to_float h df = (log, inr (p, m)) ->
  accepted df /\ m = mapping_of (target df) /\
  ((empty (features (drop_duplicates df)) = true /\
    log = [WarnNoFeatures] /\
    p = [("weather", Int64 (encoded (target df)))]) \/
   (empty (features (drop_duplicates df)) = false /\
    retained to_float df <> [] /\
    scalable np (retained to_float df) = true /\
    log = warn_dropped (dropped to_float df) /\
    p = scaled_features np (retained to_float df)
          ++ [("weather", Int64 (encoded (target df)))])).
Proof.
  intros Hrun. pose proof (success_accepted _ _ _ _ _ _ Hrun) as Ha.
  split; [exact Ha|]. revert Hrun.
  destruct (empty (features (drop_duplicates df))) eqn:Ee.
  - rewrite preprocess_degenerate by auto. intros [= <- <- <-]. auto.
  - destruct (retained to_float df) as [|cv K] eqn:Er.
    + rewrite preprocess_no_usable_features by auto. discriminate.
    + rewrite preprocess_scaling by (auto; congruence).
      rewrite Er.
      destruct (scalable np (cv :: K)) eqn:Es; [|discriminate].
      intros [= <- <- <-]. split; auto. right.
      repeat split; auto. discriminate.
Qed.

(** C9. Two runs on the same table return the same processed table, the
    same label mapping, the same warnings and the same failure, whatever
    order the sets of each run iterate in: nothing but the table and the
    literal grammar enters the result. *)
Theorem preprocess_data_deterministic (np : FloatOps)
  (to_float : string -> float64)
  (h1 h2 : Py.HashOrder) (df : DataFrame) :
  preprocess_data np to_float h1 df = preprocess_data np to_float h2 df.
Proof.
  transitivity (outcome np to_float df).
  - apply preprocess_outcome.
  - symmetry. apply preprocess_outcome.
Qed.

(** C6. A table without the target column, the date column or both fails
    with the schema error, before anything is logged; the error names the
    required columns that are absent, and no other, in alphabetical order:
    [weather] when only the target is absent, [date] when only the date is,
    and [date; weather] when both are. *)
Theorem missing_columns_rejected (np : FloatOps) (to_float : string -> float64)
  (h : Py.HashOrder) (df : DataFrame) :
  ~ (In "weather" (columns df) /\ In "date" (columns df)) ->
  preprocess_data np to_float h df = ([], inl (SchemaError (absent df))) /\
  (forall c, In c (absent df) <->
             (c = "weather" \/ c = "date") /\ ~ In c (columns df)) /\
  StronglySorted (fun s t => String.ltb s t = true) (absent df) /\
  (In "date" (columns df) -> absent df = ["weather"]) /\
  (In "weather" (columns df) -> absent df = ["date"]) /\
  (~ In "weather" (columns df) -> ~ In "date" (columns df) ->
   absent df = ["date"; "weather"]).
Proof.
  intros Hm. split; [|split; [|split; [|split; [|split]]]].
  - apply preprocess_schema_error. intro E. apply Hm. now apply absent_nil.
  - apply absent_In.
  - apply absent_sorted.
  - intros Hd. unfold absent. simpl.
    rewrite (proj2 (mem_true_iff string_dec "date" (columns df)) Hd).
    destruct (Py.mem string_dec "weather" (columns df)) eqn:E; auto.
    apply mem_true_iff in E. tauto.
  - intros Hw. unfold absent. simpl.
    rewrite (proj2 (mem_true_iff string_dec "weather" (columns df)) Hw).
    destruct (Py.mem string_dec "date" (columns df)) eqn:E; auto.
    apply mem_true_iff in E. tauto.
  - intros Hw Hd. unfold absent. simpl.
    rewrite (proj2 (mem_false_iff string_dec "date" (columns df)) Hd).
    rewrite (proj2 (mem_false_iff string_dec "weather" (columns df)) Hw).
    reflexivity.
Qed.

Lemma missing_columns_rejected_witness :
  ~ (In "weather" ["temp"] /\ In "date" ["temp"]) /\
  preprocess_data rational_ops decimal reversing
    {| columns := ["temp"]; rows := [[Num (qc 10)]] |}
  = ([], inl (SchemaError ["date"; "weather"])).
Proof.
  assert (H : ~ (In "weather" ["temp"] /\ In "date" ["temp"])).
  { simpl. intros [[E|[]] _]. discriminate. }
  split; [exact H|].
  exact (proj1 (missing_columns_rejected rational_ops decimal reversing
                  {| columns := ["temp"]; rows := [[Num (qc 10)]] |} H)).
Defined.

(** ** The label mapping *)

Lemma StronglySorted_nth_error {A : Type} (R : A -> A -> Prop)
  (l : list A) (i j : nat) (a b : A) :
  StronglySorted R l -> i < j ->
  nth_error l i = Some a -> nth_error l j = Some b -> R a b.
Proof.
  intros Hs. revert i j. induction Hs as [|x l Hs IH Hx]; intros i j Hij.
  - destruct i; discriminate.
  - destruct j as [|j]; [lia|]. destruct i as [|i]; simpl.
    + intros [= ->] Hb. rewrite Forall_forall in Hx.
      apply Hx. eapply nth_error_In; eauto.
    + apply IH. lia.
Qed.

Lemma nth_error_seq_0 (n c : nat) : c < n -> nth_error (seq 0 n) c = Some c.
Proof.
  intros H. rewrite (nth_error_nth' _ 0) by now rewrite length_seq.
  now rewrite seq_nth.
Qed.

Lemma mapping_of_keys (y : list cell) : map fst (mapping_of y) = classes_of y.
Proof.
  unfold mapping_of. apply zip_fst. now rewrite length_seq.
Qed.

Lemma mapping_of_codes (y : list cell) :
  map snd (mapping_of y) = seq 0 (List.length (classes_of y)).
Proof.
  unfold mapping_of. apply zip_snd. now rewrite length_seq.
Qed.

Lemma mapping_of_get (y : list cell) (v : cell) (c : nat) :
  Py.index cell_eq_dec v (classes_of y) = Some c ->
  Py.dict_get cell_eq_dec (mapping_of y) v = Some c.
Proof.
  intros Hi. unfold mapping_of.
  rewrite (dict_get_zip_index cell_eq_dec _ _ v c);
    [|now rewrite length_seq|exact Hi].
  apply nth_error_seq_0.
  apply index_nth_error in Hi.
  apply nth_error_Some. congruence.
Qed.

(** C1. When the transformer returns, the label mapping has one entry per
    distinct value of the target column of the de-duplicated table; its
    codes are 0, 1, ..., K-1 in this order while its keys are the distinct
    target values in strictly increasing order (for texts: [String.ltb],
    the order of the code points); encoding a target value and decoding the
    code gives the value back, and decoding a code and encoding the value
    gives the code back.  The encoded target is the last column of the
    processed table, has one code per row of the de-duplicated table, and
    its i-th code is the code of the target value of the i-th row. *)
Theorem label_mapping_bijective (np : FloatOps) (to_float : string -> float64)
  (h : Py.HashOrder) (df : DataFrame) (log : list event) (p : Processed)
  (m : list (cell * nat)) :
  preprocess_data np to_float h df = (log, inr (p, m)) ->
  let y := target df in
  let K := List.length (nodup cell_eq_dec y) in
  List.length m = K /\
  map snd m = seq 0 K /\
  (forall v, In v (map fst m) <-> In v y) /\
  StronglySorted cell_lt (map fst m) /\
  (forall i j s t, i < j ->
     nth_error (map fst m) i = Some (Text s) ->
     nth_error (map fst m) j = Some (Text t) ->
     String.ltb s t = true) /\
  (forall v, In v y ->
     exists c, Py.dict_get cell_eq_dec m v = Some c /\
               nth_error (map fst m) c = Some v) /\
  (forall c v, nth_error (map fst m) c = Some v ->
     Py.dict_get cell_eq_dec m v = Some c) /\
  exists fs codes j,
    p = fs ++ [("weather", Int64 codes)] /\
    nth_error (columns df) j = Some "weather" /\
    y = map (fun r => nth j r NA) (rows (drop_duplicates df)) /\
    List.length codes = List.length (rows (drop_duplicates df)) /\
    forall i v, nth_error y i = Some v ->
      exists c, nth_error codes i = Some c /\
                Py.dict_get cell_eq_dec m v = Some c.
Proof.
  intros Hrun y K.
  pose proof (success_accepted _ _ _ _ _ _ Hrun) as (Hw & Hd & Hm).
  destruct (success_outputs _ _ _ _ _ _ _ Hrun) as [-> [fs ->]].
  fold y. rewrite mapping_of_keys.
  assert (HK : List.length (classes_of y) = K) by apply classes_of_length.
  split; [|split; [|split; [|split; [|split; [|split; [|split]]]]]].
  - rewrite <- (length_map fst), mapping_of_keys. exact HK.
  - now rewrite mapping_of_codes, HK.
  - intros v. apply classes_of_In.
  - apply classes_of_sorted.
  - intros i j s t Hij Hi Hj.
    exact (StronglySorted_nth_error cell_lt _ i j _ _
             (classes_of_sorted y) Hij Hi Hj).
  - intros v Hv. apply (classes_of_In y) in Hv.
    destruct (index_Some cell_eq_dec v _ Hv) as [c Hc].
    exists c. split; [now apply mapping_of_get|].
    now apply index_nth_error in Hc.
  - intros c v Hc. apply mapping_of_get.
    apply NoDup_nth_error_index; auto. apply classes_of_NoDup.
  - destruct (index_Some string_dec "weather" (columns df) Hw) as [j Hj].
    exists fs, (encoded y), j.
    split; [reflexivity|]. split; [now apply index_nth_error in Hj|].
    split.
    { unfold y, target, getitem. simpl. rewrite Hj. reflexivity. }
    split.
    { unfold y. rewrite encoded_length. now apply target_length. }
    intros i v Hi. exists (code_of (classes_of y) v). split.
    + unfold encoded. now rewrite nth_error_map, Hi.
    + assert (Hv : In v (classes_of y)).
      { apply classes_of_In. eapply nth_error_In; eauto. }
      destruct (index_Some cell_eq_dec v _ Hv) as [c Hc].
      unfold code_of. rewrite Hc. now apply mapping_of_get.
Qed.

(** The example of the specification runs to two rows, the mapping
    rain -> 0, sun -> 1 and the columns temp, weather. *)
Lemma example_run :
  preprocess_data rational_ops decimal reversing example_frame
  = ([], inr (example_processed, example_mapping)).
Proof.
  run_example.
Qed.

Lemma label_mapping_bijective_witness :
  preprocess_data rational_ops decimal reversing example_frame
  = ([], inr (example_processed, example_mapping)) /\
  List.length example_mapping
  = List.length (nodup cell_eq_dec (target example_frame)) /\
  map snd example_mapping
  = seq 0 (List.length (nodup cell_eq_dec (target example_frame))).
Proof.
  split; [exact example_run|].
  pose proof (label_mapping_bijective rational_ops decimal reversing
        example_frame
                [] example_processed example_mapping example_run) as H.
  cbv zeta in H. split; apply H.
Defined.

(** ** Imputation *)

Lemma dropna_nil_iff {V : Type} (vs : list (option V)) :
  dropna vs = [] <-> forallb isna vs = true.
Proof.
  induction vs as [|[x|] vs IH]; simpl; auto.
  - tauto.
  - split; discriminate.
Qed.


Lemma pruned_has_value (X : Frame float64) (c : string)
  (vs : list float64) :
  In (c, vs) (drop_labels X (all_na_cols X)) ->
  In (c, vs) X /\ forallb isna vs = false.
Proof.
  unfold drop_labels. rewrite filter_In. simpl.
  rewrite negb_true_iff, mem_false_iff.
  intros [Hin Hout]. split; auto.
  destruct (forallb isna vs) eqn:E; auto.
  exfalso. apply Hout.
  unfold all_na_cols. apply in_map_iff. exists (c, vs). split; auto.
  apply filter_In. split; auto.
Qed.


Lemma retained_not_all_missing (to_float : string -> float64)
  (df : DataFrame) (cv : string * list float64) :
  In cv (retained to_float df) ->
  In cv (coerced to_float df) /\ forallb isna (snd cv) = false.
Proof.
  destruct cv as [c vs]. intros H. now apply pruned_has_value in H.
Qed.


Lemma example_gaps_run :
  preprocess_data rational_ops decimal reversing example_gaps
  = ([WarnDropped ["note"]],
     inr (example_gaps_processed, example_gaps_mapping)).
Proof.
  run_example.
Qed.




(** ** Pruning *)





Lemma NoDup_filter {A : Type} (g : A -> bool) (l : list A) :
  NoDup l -> NoDup (filter g l).
Proof.
  induction 1 as [|x l Hx Hn IH]; simpl; [constructor|].
  destruct (g x); auto. constructor; auto.
  intro H. apply filter_In in H. tauto.
Qed.




(** ** The degenerate branch *)

Lemma enumerate_filter_snd {A : Type} (g : A -> bool) (k : nat) (l : list A) :
  map snd (filter (fun jc => g (snd jc)) (enumerate_from k l)) = filter g l.
Proof.
  revert k. induction l as [|x l IH]; intros k; simpl; auto.
  destruct (g x); simpl; now rewrite IH.
Qed.

Lemma drop_column_labels (df : DataFrame) (labels : list string) :
  map fst (drop df labels)
  = filter (fun c => negb (Py.mem string_dec c labels)) (columns df).
Proof.
  unfold drop. rewrite map_map. simpl.
  apply (enumerate_filter_snd
           (fun c => negb (Py.mem string_dec c labels)) 0 (columns df)).
Qed.

Lemma filter_nil_iff {A : Type} (g : A -> bool) (l : list A) :
  filter g l = [] <-> forall x, In x l -> g x = false.
Proof.
  induction l as [|x l IH]; simpl.
  - tauto.
  - destruct (g x) eqn:E.
    + split; [discriminate|]. intros H. specialize (H x (or_introl eq_refl)).
      congruence.
    + rewrite IH. split; intros H y; [intros [<-|Hy]|]; auto.
Qed.

Lemma map_nil_iff {A B : Type} (f : A -> B) (l : list A) :
  map f l = [] <-> l = [].
Proof.
  destruct l; simpl; split; auto; discriminate.
Qed.

Lemma two_columns (l : list string) :
  In "weather" l -> In "date" l -> (2 <? List.length l) = false ->
  forall c, In c l -> c = "weather" \/ c = "date".
Proof.
  intros Hw Hd Hl. apply Nat.ltb_ge in Hl.
  destruct l as [|a [|b [|x l]]]; simpl in *; try lia; try tauto.
  - destruct Hw as [Ew|[]], Hd as [Ed|[]]. congruence.
  - intros c [<-|[<-|[]]].
    + destruct Hw as [?|[?|[]]]; auto. destruct Hd as [?|[?|[]]]; auto.
      subst. discriminate.
    + destruct Hw as [?|[?|[]]]; auto. destruct Hd as [?|[?|[]]]; auto.
      subst. discriminate.
Qed.

Lemma features_nil_iff (df : DataFrame) :
  In "weather" (columns df) -> In "date" (columns df) ->
  (features (drop_duplicates df) = [] <->
   forall c, In c (columns df) -> c = "weather" \/ c = "date").
Proof.
  intros Hw Hd. unfold features. simpl columns.
  destruct (2 <? List.length (columns df)) eqn:El.
  - etransitivity; [symmetry; apply (map_nil_iff fst)|].
    rewrite drop_column_labels. simpl columns.
    rewrite filter_nil_iff. split; intros H c Hc.
    + specialize (H c Hc). apply negb_false_iff, mem_true_iff in H.
      simpl in H. intuition.
    + apply negb_false_iff, mem_true_iff. simpl.
      destruct (H c Hc); auto.
  - split; auto. intros _. now apply two_columns.
Qed.

Lemma drop_duplicates_no_rows (df : DataFrame) :
  rows (drop_duplicates df) = [] <-> rows df = [].
Proof.
  unfold drop_duplicates. simpl. destruct (rows df); simpl.
  - tauto.
  - split; discriminate.
Qed.

Lemma features_empty_iff (df : DataFrame) :
  In "weather" (columns df) -> In "date" (columns df) ->
  (empty (features (drop_duplicates df)) = true <->
   (forall c, In c (columns df) -> c = "weather" \/ c = "date")
   \/ rows df = []).
Proof.
  intros Hw Hd.
  rewrite <- features_nil_iff by auto.
  rewrite <- drop_duplicates_no_rows.
  pose proof (empty_false _ _ (features_lengths (drop_duplicates df))) as H.
  destruct (empty (features (drop_duplicates df))).
  - split; auto. intros _.
    destruct (features (drop_duplicates df)) eqn:Ef; auto.
    destruct (rows (drop_duplicates df)) eqn:Er; auto.
    exfalso. assert (true = false); [|discriminate].
    apply H. split; [discriminate|]. simpl. discriminate.
  - split; [discriminate|]. intros [E|E]; exfalso.
    + destruct (proj1 H eq_refl) as [H1 _]. contradiction.
    + destruct (proj1 H eq_refl) as [_ H2]. rewrite E in H2.
      now apply H2.
Qed.

Lemma warn_dropped_not_degenerate (D : list string) :
  warn_dropped D <> [WarnNoFeatures].
Proof.
  destruct D; simpl; discriminate.
Qed.

(** C2, as the claim states it, fails: a table with a feature column and
    no row takes the degenerate branch. *)
Lemma header_only_takes_degenerate_branch :
  accepted header_only /\
  In "temp" (columns header_only) /\
  preprocess_data rational_ops decimal reversing header_only
  = ([WarnNoFeatures], inr ([("weather", Int64 [])], [])) /\
  ~ (fst (preprocess_data rational_ops decimal reversing
        header_only) = [WarnNoFeatures]
     <-> forall c, In c (columns header_only) ->
                   c = "weather" \/ c = "date").
Proof.
  split; [|split; [|split]].
  - unfold accepted. simpl. repeat split; auto.
  - simpl. auto.
  - reflexivity.
  - intros [H _]. specialize (H eq_refl "temp").
    destruct H as [H|H]; [simpl; auto| |]; discriminate.
Qed.

(** C2, amended. On an accepted table the degenerate branch (the warning
    about no numeric features, and a processed table holding only the
    integer target column) is taken exactly when the feature frame is
    empty in the sense of pandas: the table has no column other than the
    target and the date, or it has no row.  On every accepted table with a
    further column and at least one row the remaining steps run: the
    columns are coerced and pruned, and the run ends with
    [NoUsableFeatures] when no column is left, with the ValueError of the
    scaler when an imputed column holds an infinity, and otherwise with the
    scaled columns followed by the target. *)
Theorem degenerate_branch_iff_empty_frame (np : FloatOps)
  (to_float : string -> float64) (h : Py.HashOrder) (df : DataFrame) :
  accepted df ->
  let degenerate :=
    (forall c, In c (columns df) -> c = "weather" \/ c = "date")
    \/ rows df = [] in
  (fst (preprocess_data np to_float h df) = [WarnNoFeatures] <-> degenerate) /\
  (degenerate ->
   preprocess_data np to_float h df
   = ([WarnNoFeatures],
      inr ([("weather", Int64 (encoded (target df)))],
           mapping_of (target df)))) /\
  (~ degenerate ->
   preprocess_data np to_float h df
   = (warn_dropped (dropped to_float df),
      match retained to_float df with
      | [] => inl NoUsableFeatures
      | K =>
          if scalable np K then
            inr (scaled_features np K
                   ++ [("weather", Int64 (encoded (target df)))],
                 mapping_of (target df))
          else inl (LibraryError "ValueError")
      end)).
Proof.
  intros Ha degenerate.
  pose proof Ha as (Hw & Hd & Hm).
  pose proof (features_empty_iff df Hw Hd) as He. fold degenerate in He.
  assert (Hyes : degenerate ->
     preprocess_data np to_float h df
     = ([WarnNoFeatures],
        inr ([("weather", Int64 (encoded (target df)))],
             mapping_of (target df)))).
  { intros Hg. apply preprocess_degenerate; auto. now apply He. }
  assert (Hno : ~ degenerate ->
     preprocess_data np to_float h df
     = (warn_dropped (dropped to_float df),
        match retained to_float df with
        | [] => inl NoUsableFeatures
        | K =>
            if scalable np K then
              inr (scaled_features np K
                     ++ [("weather", Int64 (encoded (target df)))],
                   mapping_of (target df))
            else inl (LibraryError "ValueError")
        end)).
  { intros Hg.
    assert (Ee : empty (features (drop_duplicates df)) = false).
    { destruct (empty (features (drop_duplicates df))); auto.
      exfalso. apply Hg, He. reflexivity. }
    destruct (retained to_float df) as [|cv K] eqn:Er.
    - now apply preprocess_no_usable_features.
    - rewrite preprocess_scaling by (auto; congruence). rewrite Er.
      cbv zeta. now destruct (scalable np (cv :: K)). }
  split; [|split; assumption].
  split.
  - intros Hlog.
    destruct (empty (features (drop_duplicates df))) eqn:Ee;
      [now apply He|].
    exfalso.
    assert (Hg : ~ degenerate).
    { intros Hg. apply He in Hg. congruence. }
    rewrite (Hno Hg) in Hlog. simpl in Hlog.
    now apply warn_dropped_not_degenerate in Hlog.
  - intros Hg. now rewrite (Hyes Hg).
Qed.

Lemma degenerate_branch_iff_empty_frame_witness :
  accepted header_only /\
  (fst (preprocess_data rational_ops decimal reversing
        header_only) = [WarnNoFeatures]
   <-> (forall c, In c (columns header_only) ->
                  c = "weather" \/ c = "date")
       \/ rows header_only = []).
Proof.
  assert (Ha : accepted header_only).
  { unfold accepted. simpl. repeat split; auto. }
  split; [exact Ha|].
  exact (proj1 (degenerate_branch_iff_empty_frame rational_ops decimal reversing
                  header_only Ha)).
Defined.

(** ** Assembly *)

Lemma subseq_refl {A : Type} (l : list A) : subseq l l.
Proof.
  induction l; constructor; auto.
Qed.

Lemma subseq_filter {A : Type} (g : A -> bool) (l : list A) :
  subseq (filter g l) l.
Proof.
  induction l as [|x l IH]; simpl; [constructor|].
  destruct (g x); constructor; auto.
Qed.

Lemma subseq_map {A B : Type} (f : A -> B) (l l' : list A) :
  subseq l l' -> subseq (map f l) (map f l').
Proof.
  induction 1; simpl; constructor; auto.
Qed.

Lemma subseq_trans {A : Type} (l1 l2 l3 : list A) :
  subseq l1 l2 -> subseq l2 l3 -> subseq l1 l3.
Proof.
  intros H12 H23. revert l1 H12.
  induction H23 as [|x l2 l3 H23 IH|x l2 l3 H23 IH]; intros l1 H12.
  - exact H12.
  - inversion H12; subst.
    + apply subseq_keep. auto.
    + apply subseq_skip. auto.
  - apply subseq_skip. auto.
Qed.

Lemma features_labels_subseq (df : DataFrame) :
  subseq (map fst (features df)) (columns df).
Proof.
  unfold features. destruct (2 <? _).
  - rewrite drop_column_labels. apply subseq_filter.
  - simpl. induction (columns df); constructor; auto.
Qed.

Lemma retained_labels_subseq (to_float : string -> float64)
  (df : DataFrame) :
  subseq (map fst (retained to_float df)) (columns df).
Proof.
  eapply subseq_trans.
  - unfold retained, drop_labels. apply subseq_map, subseq_filter.
  - rewrite coerced_labels.
    apply (features_labels_subseq (drop_duplicates df)).
Qed.

Lemma enumerate_from_In {A : Type} (k j : nat) (x : A) (l : list A) :
  In (j, x) (enumerate_from k l) -> k <= j /\ nth_error l (j - k) = Some x.
Proof.
  revert k. induction l as [|y l IH]; intros k; simpl; [tauto|].
  intros [[= <- <-]|H].
  - rewrite Nat.sub_diag. auto.
  - apply IH in H. destruct H as [Hk H]. split; [lia|].
    replace (j - k) with (S (j - S k)) by lia. exact H.
Qed.

Lemma drop_column_content (df : DataFrame) (labels : list string)
  (c : string) (vs : list cell) :
  In (c, vs) (drop df labels) ->
  exists j, nth_error (columns df) j = Some c /\ vs = column_at df j.
Proof.
  unfold drop. intros H. apply in_map_iff in H.
  destruct H as [[j c'] [[= <- <-] H]]. apply filter_In in H.
  destruct H as [H _]. apply enumerate_from_In in H.
  rewrite Nat.sub_0_r in H. exists j. tauto.
Qed.

Lemma retained_column_content (to_float : string -> float64)
  (df : DataFrame) (c : string) (vs : list float64) :
  In (c, vs) (retained to_float df) ->
  exists j, nth_error (columns df) j = Some c /\
            vs = map (fun r => to_numeric to_float (nth j r NA))
                     (rows (drop_duplicates df)).
Proof.
  intros H. apply retained_incl in H.
  unfold coerced, apply_to_numeric in H. apply in_map_iff in H.
  destruct H as [[c' ws] [[= <- <-] H]].
  unfold features in H. destruct (2 <? _); [|contradiction].
  apply drop_column_content in H. destruct H as [j [Hj ->]].
  exists j. split; [exact Hj|].
  unfold column_at. now rewrite map_map.
Qed.

Lemma target_column (df : DataFrame) :
  In "weather" (columns df) ->
  exists j, nth_error (columns df) j = Some "weather" /\
            target df = map (fun r => nth j r NA) (rows (drop_duplicates df)).
Proof.
  intros Hw.
  destruct (index_Some string_dec "weather" (columns df) Hw) as [j Hj].
  exists j. split; [now apply index_nth_error in Hj|].
  unfold target, getitem. simpl. now rewrite Hj.
Qed.

(** C8. When a run on a table with a non-empty feature frame returns, the
    processed table is made of the scaled retained columns followed by the
    column [weather]: its header is the labels of the retained columns,
    which stand in the order of the raw header, then [weather], last; every
    column has as many entries as the de-duplicated table has rows; the
    i-th entry of a feature column is computed from the cell of the i-th
    de-duplicated row in that column (coerced, imputed, then scaled with
    the statistics of the column), and the i-th entry of [weather] is the
    code of the target of the i-th de-duplicated row. *)
Theorem processed_table_layout (np : FloatOps)
  (to_float : string -> float64) (h : Py.HashOrder) (df : DataFrame)
  (log : list event) (p : Processed) (m : list (cell * nat)) :
  preprocess_data np to_float h df = (log, inr (p, m)) ->
  empty (features (drop_duplicates df)) = false ->
  let K := retained to_float df in
  let deduplicated := rows (drop_duplicates df) in
  map fst p = map fst K ++ ["weather"] /\
  subseq (map fst K) (columns df) /\
  K <> [] /\
  Forall (fun cs => series_length (snd cs) = List.length deduplicated) p /\
  (forall k c vs, nth_error K k = Some (c, vs) ->
     (exists j, nth_error (columns df) j = Some c /\
                vs = map (fun r => to_numeric to_float (nth j r NA))
                         deduplicated) /\
     exists zs, nth_error p k = Some (c, Float64 zs) /\
       forall i, nth_error zs i =
         option_map
           (fun v =>
              StandardScaler.scale_value np
                (fit_mean np (imputed_column np vs))
                (fit_scale np (imputed_column np vs))
                match v with Some x => Some x | None => mean np vs end)
           (nth_error vs i)) /\
  nth_error p (List.length K)
  = Some ("weather", Int64 (encoded (target df))) /\
  List.length p = S (List.length K) /\
  exists j, nth_error (columns df) j = Some "weather" /\
    encoded (target df)
    = map (fun r => code_of (classes_of (target df)) (nth j r NA))
          deduplicated.
Proof.
  intros Hrun He K deduplicated.
  destruct (success_cases _ _ _ _ _ _ _ Hrun)
    as (Ha & _ & [(He' & _)|(_ & Hr & Hs & _ & ->)]); [congruence|].
  fold K. pose proof Ha as (Hw & Hd & Hm).
  assert (HlenK : List.length (scaled_features np K) = List.length K).
  { unfold scaled_features. apply length_map. }
  split; [now rewrite map_app, scaled_features_labels|].
  split; [apply retained_labels_subseq|].
  split; [exact Hr|].
  split.
  { apply Forall_app. split.
    - unfold scaled_features. apply Forall_map. simpl.
      eapply Forall_impl; [|apply (retained_lengths to_float df)].
      intros cv Hcv. simpl.
      now rewrite scale_column_length, imputed_column_length.
    - repeat constructor. simpl.
      rewrite encoded_length. now apply target_length. }
  split.
  { intros k c vs Hk. split.
    - apply (retained_column_content to_float df c vs).
      eapply nth_error_In; eauto.
    - exists (scale_column np (imputed_column np vs)). split.
      + rewrite nth_error_app1.
        * unfold scaled_features. now rewrite nth_error_map, Hk.
        * rewrite HlenK. apply nth_error_Some. congruence.
      + intros i. unfold scale_column. unfold imputed_column at 3.
        rewrite !map_map. now rewrite nth_error_map. }
  split.
  { rewrite nth_error_app2 by (rewrite HlenK; lia).
    now rewrite HlenK, Nat.sub_diag. }
  split.
  { rewrite length_app, HlenK. simpl. lia. }
  destruct (target_column df Hw) as [j [Hj Ht]].
  exists j. split; [exact Hj|].
  unfold encoded. rewrite Ht at 2. now rewrite map_map.
Qed.

Lemma processed_table_layout_witness :
  preprocess_data rational_ops decimal reversing example_gaps
  = ([WarnDropped ["note"]],
     inr (example_gaps_processed, example_gaps_mapping)) /\
  empty (features (drop_duplicates example_gaps)) = false /\
  map fst example_gaps_processed
  = map fst (retained decimal example_gaps) ++ ["weather"].
Proof.
  split; [exact example_gaps_run|]. split; [reflexivity|].
  exact (proj1 (processed_table_layout rational_ops decimal reversing
        example_gaps
                  _ _ _ example_gaps_run eq_refl)).
Defined.

(* ================================================================= *)
(** * Further properties of the transformer *)

(** ** Duplicate rows *)

Lemma drop_duplicates_idempotent (df : DataFrame) :
  drop_duplicates (drop_duplicates df) = drop_duplicates df.
Proof.
  unfold drop_duplicates. simpl. f_equal. apply keep_first_fixed.
  - apply keep_first_NoDup.
  - intros r _ [].
Qed.

Lemma keep_first_seen (seen seen' l : list row) :
  (forall r, In r seen <-> In r seen') ->
  keep_first seen l = keep_first seen' l.
Proof.
  revert seen seen'. induction l as [|x l IH]; intros seen seen' Hs; simpl.
  - reflexivity.
  - destruct (Py.mem row_eq_dec x seen) eqn:E.
    + apply mem_true_iff in E.
      rewrite (proj2 (mem_true_iff row_eq_dec x seen')) by now apply Hs.
      now apply IH.
    + apply mem_false_iff in E.
      rewrite (proj2 (mem_false_iff row_eq_dec x seen'))
        by (intro H; apply E; now apply Hs).
      f_equal. apply IH. intros r. simpl. rewrite Hs. tauto.
Qed.

Lemma keep_first_app (seen l1 l2 : list row) :
  keep_first seen (l1 ++ l2)
  = keep_first seen l1 ++ keep_first (l1 ++ seen) l2.
Proof.
  revert seen. induction l1 as [|x l1 IH]; intros seen; simpl.
  - reflexivity.
  - destruct (Py.mem row_eq_dec x seen) eqn:E.
    + rewrite IH. f_equal. apply keep_first_seen.
      apply mem_true_iff in E. intros r. simpl. rewrite !in_app_iff.
      split; [tauto|]. intros [<-|H]; tauto.
    + simpl. f_equal. rewrite IH. f_equal. apply keep_first_seen.
      intros r. simpl. rewrite !in_app_iff. simpl. tauto.
Qed.

Lemma keep_first_duplicate (l1 l2 : list row) (r : row) :
  In r l1 -> keep_first [] (l1 ++ r :: l2) = keep_first [] (l1 ++ l2).
Proof.
  intros Hr. rewrite !keep_first_app. f_equal. simpl.
  rewrite (proj2 (mem_true_iff row_eq_dec r (l1 ++ [])))
    by (rewrite in_app_iff; now left).
  reflexivity.
Qed.

(** X1. A row that repeats an earlier row has no effect on the run,
    wherever it stands after that row: the warnings, the failure or the
    processed table and label mapping are those of the table without it.
    The same holds for a table de-duplicated beforehand. *)
Theorem duplicate_rows_do_not_matter (np : FloatOps)
  (to_float : string -> float64)
  (h : Py.HashOrder) (header : list string) (l1 l2 : list row) (r : row) :
  In r l1 ->
  preprocess_data np to_float h {| columns := header; rows := l1 ++ r :: l2 |}
  = preprocess_data np to_float h {| columns := header; rows := l1 ++ l2 |} /\
  preprocess_data np to_float h
    (drop_duplicates {| columns := header; rows := l1 ++ r :: l2 |})
  = preprocess_data np to_float h {| columns := header; rows := l1 ++ l2 |}.
Proof.
  intros Hr.
  assert (E : drop_duplicates {| columns := header; rows := l1 ++ r :: l2 |}
              = drop_duplicates {| columns := header; rows := l1 ++ l2 |}).
  { unfold drop_duplicates. simpl. f_equal. now apply keep_first_duplicate. }
  split.
  - unfold preprocess_data. now rewrite E.
  - unfold preprocess_data. now rewrite drop_duplicates_idempotent, E.
Qed.

Lemma duplicate_rows_do_not_matter_witness :
  In [Text "2020-01-01"; Text "rain"; Num (qc 10)]
     [ [Text "2020-01-01"; Text "rain"; Num (qc 10)];
       [Text "2020-01-02"; Text "sun"; Num (qc 20)] ] /\
  preprocess_data rational_ops decimal reversing example_frame
  = preprocess_data rational_ops decimal reversing
      {| columns := ["date"; "weather"; "temp"];
         rows := [ [Text "2020-01-01"; Text "rain"; Num (qc 10)];
                   [Text "2020-01-02"; Text "sun"; Num (qc 20)] ] |}.
Proof.
  assert (H : In [Text "2020-01-01"; Text "rain"; Num (qc 10)]
                 [ [Text "2020-01-01"; Text "rain"; Num (qc 10)];
                   [Text "2020-01-02"; Text "sun"; Num (qc 20)] ]).
  { left. reflexivity. }
  split; [exact H|].
  exact (proj1 (duplicate_rows_do_not_matter rational_ops decimal reversing
                  ["date"; "weather"; "temp"] _ [] _ H)).
Defined.

(** ** What a returned table looks like *)

Lemma code_of_bound (classes : list cell) (v : cell) :
  In v classes -> code_of classes v < List.length classes.
Proof.
  intros Hv. destruct (index_Some cell_eq_dec v classes Hv) as [i Hi].
  unfold code_of. rewrite Hi. apply index_nth_error in Hi.
  apply nth_error_Some. congruence.
Qed.

(** X2. A returned table has exactly one column of integers, the target
    [weather], and that column uses the codes densely: every code in it is
    below the number of entries of the label mapping, and every code below
    that number occurs in it. *)
Theorem returned_codes_are_dense (np : FloatOps)
  (to_float : string -> float64) (h : Py.HashOrder) (df : DataFrame)
  (log : list event) (p : Processed) (m : list (cell * nat)) :
  preprocess_data np to_float h df = (log, inr (p, m)) ->
  (exists codes, In ("weather", Int64 codes) p) /\
  (forall c codes, In (c, Int64 codes) p ->
     c = "weather" /\
     codes = encoded (target df) /\
     Forall (fun k => k < List.length m) codes /\
     forall k, k < List.length m -> In k codes).
Proof.
  intros Hrun.
  destruct (success_cases _ _ _ _ _ _ _ Hrun) as (Ha & -> & Hp).
  assert (Hcodes : Forall (fun k => k < List.length (mapping_of (target df)))
                     (encoded (target df)) /\
                   forall k, k < List.length (mapping_of (target df)) ->
                             In k (encoded (target df))).
  { assert (Hl : List.length (mapping_of (target df))
                 = List.length (classes_of (target df))).
    { now rewrite <- (length_map fst), mapping_of_keys. }
    rewrite Hl. split.
    - unfold encoded. apply Forall_map, Forall_forall. intros v Hv.
      apply code_of_bound. now apply classes_of_In.
    - intros k Hk.
      destruct (nth_error (classes_of (target df)) k) as [v|] eqn:Ev;
        [|apply nth_error_None in Ev; lia].
      unfold encoded. apply in_map_iff. exists v. split.
      + unfold code_of.
        now rewrite (NoDup_nth_error_index cell_eq_dec _ k v
                       (classes_of_NoDup _) Ev).
      + apply classes_of_In. eapply nth_error_In; eauto. }
  assert (Hint : forall c codes,
            ~ In (c, Int64 codes)
                 (scaled_features np (retained to_float df))).
  { intros c codes H. unfold scaled_features in H. apply in_map_iff in H.
    destruct H as [cv [[=] _]]. }
  destruct Hp as [(_ & _ & ->)|(_ & _ & _ & _ & ->)]; split.
  - eexists. now left.
  - intros c codes [[= <- <-]|[]]. split; auto.
  - eexists. apply in_app_iff. right. now left.
  - intros c codes H. apply in_app_iff in H.
    destruct H as [H|[[= <- <-]|[]]]; [now apply Hint in H|]. split; auto.
Qed.

Lemma returned_codes_are_dense_witness :
  preprocess_data rational_ops decimal reversing example_gaps
  = ([WarnDropped ["note"]],
     inr (example_gaps_processed, example_gaps_mapping)) /\
  exists codes, In ("weather", Int64 codes) example_gaps_processed.
Proof.
  split; [exact example_gaps_run|].
  exact (proj1 (returned_codes_are_dense rational_ops decimal reversing
                  example_gaps _ _ _ example_gaps_run)).
Defined.

Lemma subseq_In {A : Type} (l l' : list A) (x : A) :
  subseq l l' -> In x l -> In x l'.
Proof.
  induction 1; simpl; intuition.
Qed.

Lemma subseq_NoDup {A : Type} (l l' : list A) :
  subseq l l' -> NoDup l' -> NoDup l.
Proof.
  induction 1 as [|x l l' Hs IH|x l l' Hs IH]; intros Hn.
  - constructor.
  - inversion Hn; subst. constructor; auto.
    intro H. eapply subseq_In in H; eauto.
  - inversion Hn; subst. auto.
Qed.

Lemma retained_labels_features (to_float : string -> float64)
  (df : DataFrame) (c : string) :
  In c (map fst (retained to_float df)) ->
  In c (map fst (features (drop_duplicates df))).
Proof.
  intros H. apply in_map_iff in H. destruct H as [cv [<- H]].
  apply retained_incl in H.
  rewrite <- coerced_labels with (to_float := to_float).
  now apply in_map.
Qed.

Lemma features_not_date (df : DataFrame) :
  ~ In "date" (map fst (features df)).
Proof.
  unfold features. destruct (2 <? _); simpl; auto.
  intros H. apply drop_labels_out in H. apply H. simpl. auto.
Qed.

(** X3. The header of a returned table never holds [date]; it holds
    [weather] once, in the last place; every label before it is a label of
    the raw table other than the target, and when the labels of the raw
    table are pairwise distinct so are those of the returned table. *)
Theorem returned_header (np : FloatOps) (to_float : string -> float64)
  (h : Py.HashOrder) (df : DataFrame) (log : list event) (p : Processed)
  (m : list (cell * nat)) :
  preprocess_data np to_float h df = (log, inr (p, m)) ->
  ~ In "date" (map fst p) /\
  (exists labels, map fst p = labels ++ ["weather"] /\
     ~ In "weather" labels /\
     subseq labels (columns df)) /\
  (NoDup (columns df) -> NoDup (map fst p)).
Proof.
  intros Hrun.
  destruct (success_cases _ _ _ _ _ _ _ Hrun) as (Ha & _ & Hp).
  assert (Hnil : subseq (@nil string) (columns df)).
  { induction (columns df); constructor; auto. }
  destruct Hp as [(_ & _ & ->)|(_ & _ & _ & _ & ->)].
  - simpl. split; [intros [E|[]]; discriminate|]. split.
    + exists []. auto.
    + intros _. repeat constructor. simpl. tauto.
  - rewrite map_app, scaled_features_labels. simpl.
    assert (Hd : ~ In "date" (map fst (retained to_float df))).
    { intro H. apply retained_labels_features in H.
      now apply features_not_date in H. }
    pose proof (retained_not_weather to_float df) as Hw.
    pose proof (retained_labels_subseq to_float df) as Hs.
    split; [|split].
    + rewrite in_app_iff. simpl. intros [H|[E|[]]]; auto. discriminate.
    + eauto.
    + intros Hn. pose proof (subseq_NoDup _ _ Hs Hn) as Hn'.
      apply NoDup_app; auto.
      * repeat constructor. simpl. tauto.
      * intros c Hc [<-|[]]. contradiction.
Qed.

Lemma returned_header_witness :
  preprocess_data rational_ops decimal reversing example_frame
  = ([], inr (example_processed, example_mapping)) /\
  ~ In "date" (map fst example_processed).
Proof.
  split; [exact example_run|].
  exact (proj1 (returned_header rational_ops decimal reversing example_frame
                  [] example_processed example_mapping example_run)).
Defined.

(** ** Warnings *)

Lemma warn_dropped_length (D : list string) :
  List.length (warn_dropped D) <= 1.
Proof.
  destruct D; simpl; lia.
Qed.

Lemma warn_dropped_In (D D' : list string) :
  In (WarnDropped D') (warn_dropped D) -> D' = D /\ D <> [].
Proof.
  destruct D; simpl; [tauto|]. intros [[= <-]|[]]. split; auto. discriminate.
Qed.

Lemma nothing_retained (to_float : string -> float64) (df : DataFrame) :
  retained to_float df = [] ->
  forall c, In c (map fst (features (drop_duplicates df))) ->
            In c (dropped to_float df).
Proof.
  unfold retained, drop_labels. intros Hr c Hc.
  pose proof (proj1 (filter_nil_iff _ _) Hr) as H.
  rewrite <- coerced_labels with (to_float := to_float) in Hc.
  apply in_map_iff in Hc. destruct Hc as [cv [<- Hcv]].
  specialize (H cv Hcv). now apply negb_false_iff, mem_true_iff in H.
Qed.

Lemma dropped_not_retained (to_float : string -> float64)
  (df : DataFrame) (c : string) :
  In c (dropped to_float df) -> ~ In c (map fst (retained to_float df)).
Proof.
  intros Hd H. apply in_map_iff in H. destruct H as [cv [<- H]].
  unfold retained, drop_labels in H. apply filter_In in H.
  destruct H as [_ H]. apply negb_true_iff, mem_false_iff in H. auto.
Qed.

Lemma dropped_features (to_float : string -> float64) (df : DataFrame)
  (c : string) :
  In c (dropped to_float df) ->
  In c (map fst (features (drop_duplicates df))).
Proof.
  unfold dropped, all_na_cols. intros H. apply in_map_iff in H.
  destruct H as [cv [<- H]]. apply filter_In in H. destruct H as [H _].
  rewrite <- coerced_labels with (to_float := to_float). now apply in_map.
Qed.

(** X4. A run logs at most one warning.  A failure of the schema check
    comes with no warning.  [NoUsableFeatures] always
    comes with exactly one warning, which lists every feature column.  The
    warning about no numeric features comes only with a returned table made
    of the target column alone.  A warning about dropped columns names at
    least one column, and none of the columns it names is in a returned
    table. *)
Theorem warnings_of_a_run (np : FloatOps) (to_float : string -> float64)
  (h : Py.HashOrder) (df : DataFrame) :
  let log := fst (preprocess_data np to_float h df) in
  let res := snd (preprocess_data np to_float h df) in
  List.length log <= 1 /\
  (forall missing, res = inl (SchemaError missing) -> log = []) /\
  (res = inl NoUsableFeatures ->
     log = [WarnDropped (dropped to_float df)] /\
     dropped to_float df <> [] /\
     forall c, In c (map fst (features (drop_duplicates df))) ->
               In c (dropped to_float df)) /\
  (In WarnNoFeatures log ->
     res = inr ([("weather", Int64 (encoded (target df)))],
                mapping_of (target df))) /\
  (forall D, In (WarnDropped D) log ->
     D <> [] /\
     forall p m c, res = inr (p, m) -> In c D -> ~ In c (map fst p)).
Proof.
  cbv zeta. rewrite preprocess_outcome. unfold outcome.
  destruct (absent df) as [|a l] eqn:Ea.
  2:{ simpl. repeat split; try discriminate; auto; tauto. }
  destruct (LabelEncoder.mixed (target df)) eqn:Em.
  { simpl. repeat split; try discriminate; auto; tauto. }
  destruct (empty (features (drop_duplicates df))) eqn:Ee.
  { simpl. repeat split; try discriminate; auto;
      try lia; intros; repeat match goal with
                               | H : _ \/ _ |- _ => destruct H
                               | H : False |- _ => destruct H
                               end; discriminate. }
  pose proof (empty_false _ _ (features_lengths (drop_duplicates df))) as Hx.
  apply Hx in Ee. destruct Ee as [Hf Hn].
  destruct (retained to_float df) as [|cv K] eqn:Er.
  - simpl.
    pose proof (nothing_retained to_float df Er) as Hall.
    assert (Hd : dropped to_float df <> []).
    { destruct (features (drop_duplicates df)) as [|[c vs] X] eqn:Ef;
        [congruence|].
      intro E. specialize (Hall c (or_introl eq_refl)).
      rewrite E in Hall. exact Hall. }
    split; [apply warn_dropped_length|].
    split; [discriminate|].
    split.
    { intros _. split; auto.
      destruct (dropped to_float df); [congruence|reflexivity]. }
    split.
    { intros H. exfalso. destruct (dropped to_float df); simpl in H;
        [exact H|destruct H as [[=]|[]]]. }
    intros D H. apply warn_dropped_In in H. destruct H as [-> H].
    split; auto. discriminate.
  - rewrite <- Er.
    destruct (scalable np (retained to_float df)); cbn [fst snd].
    + split; [apply warn_dropped_length|].
      split; [discriminate|]. split; [discriminate|].
      split.
      { intros H. exfalso. destruct (dropped to_float df); simpl in H;
          [exact H|destruct H as [[=]|[]]]. }
      intros D H. apply warn_dropped_In in H. destruct H as [-> H].
      split; auto. intros p m c [= <- _] Hc.
      rewrite map_app, scaled_features_labels, in_app_iff. simpl.
      intros [Hin|[E|[]]].
      * now apply (dropped_not_retained to_float df c).
      * subst c. apply dropped_features in Hc.
        now apply features_not_weather in Hc.
    + split; [apply warn_dropped_length|].
      split; [discriminate|]. split; [discriminate|].
      split.
      { intros H. exfalso. destruct (dropped to_float df); simpl in H;
          [exact H|destruct H as [[=]|[]]]. }
      intros D H. apply warn_dropped_In in H. destruct H as [-> H].
      split; auto. discriminate.
Qed.

(** ** The order of the rows *)

Lemma drop_duplicates_perm (df df' : DataFrame) :
  Permutation (rows df) (rows df') ->
  Permutation (rows (drop_duplicates df)) (rows (drop_duplicates df')).
Proof.
  intros Hp. simpl. apply NoDup_Permutation; try apply keep_first_NoDup.
  intros r. rewrite !keep_first_In. simpl.
  rewrite (Permutation_in_iff _ _ r Hp). tauto.
Qed.

Lemma drop_similar (df df' : DataFrame) (labels : list string) :
  columns df' = columns df -> Permutation (rows df) (rows df') ->
  similar (drop df labels) (drop df' labels).
Proof.
  intros Hc Hp. unfold drop. rewrite Hc.
  induction (filter _ (enumerate_from 0 (columns df))) as [|jc L IH]; simpl.
  - constructor.
  - constructor; auto. simpl. split; auto.
    unfold column_at. now apply Permutation_map.
Qed.

Lemma features_similar (df df' : DataFrame) :
  columns df' = columns df -> Permutation (rows df) (rows df') ->
  similar (features df) (features df').
Proof.
  intros Hc Hp. unfold features. rewrite Hc.
  destruct (2 <? _); [now apply drop_similar|constructor].
Qed.

Lemma similar_labels {V : Type} (X X' : Frame V) :
  similar X X' -> map fst X = map fst X'.
Proof.
  induction 1 as [|cv cv' X X' [E _] _ IH]; simpl; congruence.
Qed.

Lemma similar_empty {V : Type} (X X' : Frame V) :
  similar X X' -> empty X = empty X'.
Proof.
  intros [|[c vs] [c' vs'] X0 X0' [_ Hp] _]; simpl in *; auto.
  apply Permutation_length in Hp. destruct vs, vs'; simpl in *; auto;
    discriminate.
Qed.

Lemma forallb_perm {A : Type} (f : A -> bool) (l l' : list A) :
  Permutation l l' -> forallb f l = forallb f l'.
Proof.
  induction 1; simpl; auto.
  - congruence.
  - now rewrite !andb_assoc, (andb_comm (f y)).
  - congruence.
Qed.

Lemma existsb_perm {A : Type} (f : A -> bool) (l l' : list A) :
  Permutation l l' -> existsb f l = existsb f l'.
Proof.
  induction 1; simpl; auto.
  - congruence.
  - now rewrite !orb_assoc, (orb_comm (f y)).
  - congruence.
Qed.

Lemma apply_to_numeric_similar (to_float : string -> float64)
  (X X' : Frame cell) :
  similar X X' ->
  similar (apply_to_numeric to_float X) (apply_to_numeric to_float X').
Proof.
  induction 1 as [|cv cv' X X' [E Hp] _ IH]; simpl; constructor; auto.
  simpl. split; auto. now apply Permutation_map.
Qed.

Lemma all_na_cols_similar (X X' : Frame float64) :
  similar X X' -> all_na_cols X = all_na_cols X'.
Proof.
  unfold all_na_cols.
  induction 1 as [|cv cv' X X' [E Hp] _ IH]; simpl; auto.
  pose proof (forallb_perm (@isna number) _ _ Hp) as Hq.
  unfold float64 in *. rewrite Hq.
  destruct (forallb isna (snd cv')); simpl; congruence.
Qed.

Lemma drop_labels_similar {V : Type} (X X' : Frame V)
  (labels : list string) :
  similar X X' -> similar (drop_labels X labels) (drop_labels X' labels).
Proof.
  unfold drop_labels.
  induction 1 as [|cv cv' X X' [E Hp] _ IH]; simpl; [constructor|].
  rewrite E. destruct (negb _); auto. constructor; auto.
Qed.

Lemma retained_similar (to_float : string -> float64)
  (df df' : DataFrame) :
  columns df' = columns df -> Permutation (rows df) (rows df') ->
  dropped to_float df = dropped to_float df' /\
  similar (retained to_float df) (retained to_float df').
Proof.
  intros Hc Hp.
  assert (Hs : similar (coerced to_float df) (coerced to_float df')).
  { apply apply_to_numeric_similar, features_similar; auto.
    now apply drop_duplicates_perm. }
  assert (Hd : dropped to_float df = dropped to_float df')
    by now apply all_na_cols_similar.
  split; auto. unfold retained. rewrite <- Hd.
  now apply drop_labels_similar.
Qed.

Lemma target_perm (df df' : DataFrame) :
  columns df' = columns df -> Permutation (rows df) (rows df') ->
  Permutation (target df) (target df').
Proof.
  intros Hc Hp. unfold target, getitem. simpl. rewrite Hc.
  destruct (Py.index string_dec "weather" (columns df)); simpl; auto.
  unfold column_at. apply Permutation_map.
  now apply (drop_duplicates_perm df df').
Qed.

Lemma classes_of_perm (y y' : list cell) :
  Permutation y y' -> classes_of y = classes_of y'.
Proof.
  intros Hp.
  apply (strict_sorted_unique cell_ltb cell_ltb_irrefl cell_ltb_trans);
    try apply classes_of_sorted.
  intros v. rewrite !classes_of_In. now apply Permutation_in_iff.
Qed.

(** X6. Reordering the rows of a table changes neither the warnings nor a
    failure raised before the scaler is reached (the schema error, the
    TypeError of the encoder, [NoUsableFeatures]); and two such runs that
    both return a table return the same label mapping and the same header.
    Whether the scaler accepts the imputed columns, and what it computes,
    is left to the arithmetic. *)
Theorem row_order_before_scaling (np : FloatOps)
  (to_float : string -> float64) (h : Py.HashOrder) (df df' : DataFrame) :
  columns df' = columns df ->
  Permutation (rows df) (rows df') ->
  fst (preprocess_data np to_float h df')
  = fst (preprocess_data np to_float h df) /\
  (forall e, e <> LibraryError "ValueError" ->
     snd (preprocess_data np to_float h df) = inl e ->
     snd (preprocess_data np to_float h df') = inl e) /\
  (forall p m p' m',
     snd (preprocess_data np to_float h df) = inr (p, m) ->
     snd (preprocess_data np to_float h df') = inr (p', m') ->
     m' = m /\ map fst p' = map fst p).
Proof.
  intros Hc Hp. rewrite !preprocess_outcome. unfold outcome.
  assert (Ea : absent df' = absent df) by (unfold absent; now rewrite Hc).
  pose proof (target_perm df df' Hc Hp) as Ht.
  assert (Em : LabelEncoder.mixed (target df')
               = LabelEncoder.mixed (target df)).
  { unfold LabelEncoder.mixed.
    now rewrite (existsb_perm _ _ _ Ht), (existsb_perm _ _ _ Ht). }
  assert (Emap : mapping_of (target df') = mapping_of (target df)).
  { unfold mapping_of. now rewrite (classes_of_perm _ _ Ht). }
  assert (Ee : empty (features (drop_duplicates df'))
               = empty (features (drop_duplicates df))).
  { symmetry. apply similar_empty, features_similar; auto.
    now apply drop_duplicates_perm. }
  destruct (retained_similar to_float df df' Hc Hp) as [Ed Hs].
  rewrite Ea, Em, Emap, Ee, <- Ed.
  destruct (absent df) as [|a l].
  2:{ simpl. split; auto. split; auto. discriminate. }
  destruct (LabelEncoder.mixed (target df)).
  { simpl. split; auto. split; auto. discriminate. }
  destruct (empty (features (drop_duplicates df))).
  { cbn [fst snd]. split; auto. split; [discriminate|].
    intros p m p' m' [= <- <-] [= <- <-]. auto. }
  pose proof (similar_labels _ _ Hs) as Hl.
  destruct Hs as [|cv cv' K K' Hcv HK].
  - cbn [fst snd]. split; auto. split; auto. discriminate.
  - destruct (scalable np (cv :: K)), (scalable np (cv' :: K'));
      cbn [fst snd]; (split; [reflexivity|]);
      (split; [intros e He [= <-]; try discriminate; congruence|]);
      intros p m p' m'; try discriminate.
    intros [= <- <-] [= <- <-]. split; [reflexivity|].
    change (map fst (scaled_features np (cv' :: K')
                       ++ [("weather", Int64 (encoded (target df')))])
            = map fst (scaled_features np (cv :: K)
                         ++ [("weather", Int64 (encoded (target df)))])).
    rewrite !map_app, !scaled_features_labels. now rewrite Hl.
Qed.

Lemma row_order_before_scaling_witness :
  columns example_gaps = columns example_gaps /\
  Permutation (rows example_gaps) (rev (rows example_gaps)) /\
  fst (preprocess_data rational_ops decimal reversing
         {| columns := columns example_gaps;
            rows := rev (rows example_gaps) |})
  = fst (preprocess_data rational_ops decimal reversing example_gaps).
Proof.
  assert (Hp : Permutation (rows example_gaps) (rev (rows example_gaps)))
    by apply Permutation_rev.
  split; [reflexivity|]. split; [exact Hp|].
  exact (proj1 (row_order_before_scaling rational_ops decimal reversing
                  example_gaps
                  {| columns := columns example_gaps;
                     rows := rev (rows example_gaps) |} eq_refl Hp)).
Defined.

(** ** Infinite values *)

Lemma scalable_false_iff (np : FloatOps) (X : Frame float64) :
  scalable np X = false <->
  exists c vs x, In (c, vs) X /\ In (Some x) (imputed_column np vs) /\
                 is_inf x = true.
Proof.
  unfold scalable. split.
  - intros H.
    destruct (forallb _ X) eqn:E; [discriminate|]. clear H.
    induction X as [|[c vs] X IH]; simpl in E; [discriminate|].
    apply andb_false_iff in E. destruct E as [E|E].
    + exists c, vs.
      induction (imputed_column np vs) as [|v l IHl]; simpl in E;
        [discriminate|].
      apply andb_false_iff in E. destruct E as [E|E].
      * destruct v as [x|]; simpl in E; [|discriminate].
        apply negb_false_iff in E. exists x. simpl. auto.
      * destruct (IHl E) as [x (Hin & Hx & Hi)]. exists x. simpl. auto.
    + destruct (IH E) as [c' [vs' [x (Hin & Hx & Hi)]]].
      exists c', vs', x. simpl. auto.
  - intros [c [vs [x (Hin & Hx & Hi)]]].
    destruct (forallb _ X) eqn:E; auto. exfalso.
    rewrite forallb_forall in E. specialize (E _ Hin). simpl in E.
    rewrite forallb_forall in E. specialize (E _ Hx). simpl in E.
    rewrite Hi in E. discriminate.
Qed.

Lemma imputed_column_In (np : FloatOps) (vs : list float64) (x : number) :
  In (Some x) (imputed_column np vs) <->
  In (Some x) vs \/ (In None vs /\ mean np vs = Some x).
Proof.
  unfold imputed_column. rewrite in_map_iff. split.
  - intros [[y|] [E H]].
    + left. congruence.
    + right. auto.
  - intros [H|[H E]].
    + now exists (Some x).
    + now exists None.
Qed.

(** X15. A run fails with the ValueError of the scaler exactly when the
    table is accepted, its feature frame is not empty, and some column that
    survives pruning holds an infinite value or has a gap while pandas
    computes an infinite mean for it. *)
Theorem infinite_value_rejected (np : FloatOps)
  (to_float : string -> float64) (h : Py.HashOrder) (df : DataFrame) :
  snd (preprocess_data np to_float h df) = inl (LibraryError "ValueError")
  <->
  accepted df /\ empty (features (drop_duplicates df)) = false /\
  exists c vs x,
    In (c, vs) (retained to_float df) /\ is_inf x = true /\
    (In (Some x) vs \/ (In None vs /\ series_mean np vs = Some x)).
Proof.
  rewrite preprocess_outcome. unfold outcome.
  destruct (absent df) as [|a l] eqn:Ea.
  2:{ simpl. split; [discriminate|]. intros ((Hw & Hd & _) & _).
      assert (E : absent df = []) by now apply absent_nil.
      congruence. }
  apply absent_nil in Ea. destruct Ea as [Hw Hd].
  destruct (LabelEncoder.mixed (target df)) eqn:Em.
  { simpl. split; [discriminate|]. intros ((_ & _ & Hm) & _). congruence. }
  destruct (empty (features (drop_duplicates df))) eqn:Ee.
  { simpl. split; [discriminate|]. intros (_ & He & _). discriminate. }
  assert (Ha : accepted df) by (repeat split; auto).
  assert (Hiff : scalable np (retained to_float df) = false <->
            exists c vs x,
              In (c, vs) (retained to_float df) /\ is_inf x = true /\
              (In (Some x) vs \/ (In None vs /\ series_mean np vs = Some x))).
  { rewrite scalable_false_iff. split.
    - intros [c [vs [x (Hin & Hx & Hi)]]].
      apply imputed_column_In in Hx. destruct Hx as [Hx|[Hn Hmean]].
      + exists c, vs, x. auto.
      + unfold mean in Hmean.
        destruct (forallb isna vs); [discriminate|].
        destruct (existsb is_posinf vs && existsb is_neginf vs);
          [discriminate|].
        exists c, vs, x. auto.
    - intros [c [vs [x (Hin & Hi & [Hx|[Hn Hmean]])]]].
      + exists c, vs, x. split; auto. split; auto.
        apply imputed_column_In. auto.
      + assert (Hv : forallb isna vs = false).
        { now apply (retained_not_all_missing to_float df (c, vs)). }
        destruct (existsb is_posinf vs) eqn:Ep.
        * apply existsb_exists in Ep. destruct Ep as [[[y| |]|] [Hy Hp]];
            try discriminate.
          exists c, vs, PosInf. split; auto. split; auto.
          apply imputed_column_In. auto.
        * exists c, vs, x. split; auto. split; auto.
          apply imputed_column_In. right. split; auto.
          unfold mean. now rewrite Hv, Ep. }
  revert Hiff. generalize (retained to_float df) as R.
  intros [|cv K] Hiff.
  { simpl. split; [discriminate|].
    intros (_ & _ & [c [vs [x ([] & _)]]]). }
  cbv zeta. destruct (scalable np (cv :: K)) eqn:Es; cbn [snd].
  - split; [discriminate|]. intros (_ & _ & H).
    apply Hiff in H. discriminate.
  - split; auto. intros _. split; auto. split; auto.
    now apply Hiff.
Qed.

(** * The script: loading, saving and reporting *)

Section ScriptFacts.
Variable FS : Type.
Variable path_exists : FS -> string -> bool.
Variable read_csv : FS -> string -> exn + DataFrame.
Variable makedirs : FS -> string -> FS * option exn.
Variable to_csv : FS -> Processed -> string -> FS * option exn.
Variable np : FloatOps.
Variable to_float : string -> float64.
Variable h : Py.HashOrder.
Variable this_file : string.
Variable str_float : number -> string.
Variable show : Processed -> string.
Variable library_message : string -> string.
Variable parse_args : list string -> nat + Namespace.

(** [run args fs]: [main] on the file system [fs], from the point where
    [parse_args()] has returned [args]. *)
Let run := main_body FS path_exists read_csv makedirs to_csv np to_float h
                     this_file str_float show library_message.
Let entry := main FS path_exists read_csv makedirs to_csv np to_float h
                  this_file str_float show library_message parse_args.
Let load := load_data FS path_exists read_csv.
Let save := save_processed FS makedirs to_csv.

(** X8. [main] changes the file system only through [save_processed], and
    calls it only once the file was loaded and the transformer returned a
    table: in every other run the file system is left as it was. *)
Theorem main_writes_only_after_transform (args : Namespace) (fs : FS) :
  fs_after (run args fs) = fs \/
  exists df log p m,
    load fs (resolved_input this_file args) = inr df /\
    preprocess_data np to_float h df = (log, inr (p, m)) /\
    fs_after (run args fs) = fst (save fs p (output_dir args)).
Proof.
  unfold run, main_body, load, save.
  destruct (load_data FS path_exists read_csv fs
              (resolved_input this_file args)) as [[msg|msg]|df] eqn:El;
    [now left|now left|].
  destruct (preprocess_data np to_float h df) as [log [e|[p m]]] eqn:Ep;
    [now left|].
  right. exists df, log, p, m. repeat split; auto.
  destruct (save_processed FS makedirs to_csv fs p (output_dir args))
    as [fs' [e|path]]; reflexivity.
Qed.

Lemma main_body_exceptions (args : Namespace) (fs : FS) :
  let path := resolved_input this_file args in
  (forall e, uncaught (run args fs) = Some e <->
     path_exists fs path = true /\ read_csv fs path = inl e /\
     forall msg, e <> FileNotFoundError msg) /\
  (forall e, uncaught (run args fs) = Some e ->
     stdout (run args fs) = [] /\ stderr (run args fs) = [] /\
     fs_after (run args fs) = fs) /\
  (uncaught (run args fs) = None -> stdout (run args fs) <> []) /\
  (path_exists fs path = false ->
   stdout (run args fs)
   = [("Error: File dataset tidak ditemukan: " ++ path)%string] /\
   stderr (run args fs) = [] /\ uncaught (run args fs) = None).
Proof.
  cbv zeta. unfold run, main_body, load_data.
  destruct (path_exists fs (resolved_input this_file args)) eqn:Ex;
    cbn [negb];
    [destruct (read_csv fs (resolved_input this_file args))
       as [[msg|msg]|df] eqn:Er;
     [| |destruct (preprocess_data np to_float h df) as [log [e|[p m]]];
         [|destruct (save_processed FS makedirs to_csv fs p
                       (output_dir args)) as [fs' [e|path]]]]|];
    simpl;
    repeat match goal with
           | |- _ /\ _ => split
           | |- _ <-> _ => split
           | |- forall _, _ => intro
           end;
    repeat match goal with
           | H : _ /\ _ |- _ => destruct H
           | H : inl _ = inl _ |- _ => injection H as H; try subst
           | H : Some _ = Some _ |- _ => injection H as H; try subst
           end;
    try discriminate; try reflexivity; auto;
    match goal with
    | H : forall msg, FileNotFoundError _ <> FileNotFoundError msg |- _ =>
        now elim (H _ eq_refl)
    end.
Qed.

(** X9. Two things leave [main] uncaught.  One is the [SystemExit] of
    argparse, raised by [parse_args()] on a command line it refuses (or
    after printing its help): it leaves [main] with the exit code of the
    parser before anything else has run.  The other, once the arguments are
    parsed, is an exception of [pd.read_csv] other than
    [FileNotFoundError], on a path that exists: nothing is printed or
    logged then, and the file system is left as it was.  In every other
    run [main] returns and prints at least one text; when the input path
    does not exist it prints exactly the text that names the path, and logs
    nothing. *)
Theorem main_uncaught_exceptions (argv : list string) (fs : FS) :
  (forall code, entry argv fs = inl code <-> parse_args argv = inl code) /\
  (forall args, parse_args argv = inr args ->
     let path := resolved_input this_file args in
     exists r, entry argv fs = inr r /\
       (forall e, uncaught r = Some e <->
          path_exists fs path = true /\ read_csv fs path = inl e /\
          forall msg, e <> FileNotFoundError msg) /\
       (forall e, uncaught r = Some e ->
          stdout r = [] /\ stderr r = [] /\ fs_after r = fs) /\
       (uncaught r = None -> stdout r <> []) /\
       (path_exists fs path = false ->
        stdout r
        = [("Error: File dataset tidak ditemukan: " ++ path)%string] /\
        stderr r = [] /\ uncaught r = None)).
Proof.
  split.
  - intros code. unfold entry, main.
    destruct (parse_args argv) as [c|args]; split; congruence.
  - intros args Hargs path. exists (run args fs). split.
    + unfold entry, main. now rewrite Hargs.
    + apply main_body_exceptions.
Qed.
End ScriptFacts.

Lemma nth_error_zip_seq {A : Type} (l : list A) (k i : nat) :
  nth_error (Py.zip l (seq k (List.length l))) i
  = option_map (fun v => (v, k + i)) (nth_error l i).
Proof.
  revert k i. induction l as [|x l IH]; intros k i; simpl.
  - now destruct i.
  - destruct i as [|i]; simpl.
    + now rewrite Nat.add_0_r.
    + rewrite IH. now rewrite Nat.add_succ_r.
Qed.

Lemma ends_with_sep_split (d : string) :
  Posix.ends_with_sep d = true -> exists d0, d = (d0 ++ "/")%string.
Proof.
  induction d as [|c d IH]; simpl; [discriminate|].
  destruct d as [|c' d'].
  - unfold Posix.is_sep. intros E. apply Ascii.eqb_eq in E. subst c.
    now exists EmptyString.
  - intros E. destruct (IH E) as [d0 ->]. now exists (String c d0).
Qed.

Lemma basename_after_sep (d name : string) :
  Posix.contains_sep name = false ->
  Posix.basename (d ++ String "/" name) = name.
Proof.
  intros Hn. induction d as [|c d IH]; simpl.
  - now rewrite Hn.
  - assert (E : Posix.contains_sep (d ++ String "/" name) = true).
    { clear IH. induction d as [|c' d IH']; simpl; auto.
      rewrite IH'. apply orb_true_r. }
    now rewrite E.
Qed.

Lemma basename_no_sep (name : string) :
  Posix.contains_sep name = false -> Posix.basename name = name.
Proof.
  destruct name as [|c r]; simpl; auto.
  intros E. apply orb_false_iff in E. destruct E as [Ec Er].
  now rewrite Er, Ec.
Qed.

Lemma append_cons_assoc (d0 name : string) :
  ((d0 ++ "/") ++ name)%string = (d0 ++ String "/" name)%string.
Proof.
  induction d0 as [|c d0 IH]; simpl; congruence.
Qed.

Lemma basename_join (d name : string) :
  Posix.contains_sep name = false ->
  Posix.basename (Posix.join d name) = name.
Proof.
  intros Hn. unfold Posix.join.
  assert (Hs : Posix.starts_with_sep name = false).
  { destruct name; simpl in *; auto. now apply orb_false_iff in Hn. }
  rewrite Hs. destruct d as [|c d]; [now apply basename_no_sep|].
  destruct (Posix.ends_with_sep (String c d)) eqn:Ee.
  - destruct (ends_with_sep_split _ Ee) as [d0 ->].
    rewrite append_cons_assoc. now apply basename_after_sep.
  - now apply basename_after_sep.
Qed.

Section ReportFacts.
Variable FS : Type.
Variable path_exists : FS -> string -> bool.
Variable read_csv : FS -> string -> exn + DataFrame.
Variable makedirs : FS -> string -> FS * option exn.
Variable to_csv : FS -> Processed -> string -> FS * option exn.
Variable np : FloatOps.
Variable to_float : string -> float64.
Variable h : Py.HashOrder.
Variable this_file : string.
Variable str_float : number -> string.
Variable show : Processed -> string.
Variable library_message : string -> string.

(** [run args fs]: [main] on the file system [fs], from the point where
    [parse_args()] has returned [args]. *)
Let run := main_body FS path_exists read_csv makedirs to_csv np to_float h
                     this_file str_float show library_message.
Let load := load_data FS path_exists read_csv.
Let save := save_processed FS makedirs to_csv.

(** X10. When the table that was loaded lacks a required column, [main]
    prints one line, the failure message followed by the list of the
    absent columns as Python prints it: ['weather'], ['date'] or
    ['date', 'weather']; it logs nothing, leaves the file system alone
    and returns. *)
Theorem main_reports_missing_columns (args : Namespace) (fs : FS)
  (df : DataFrame) :
  load fs (resolved_input this_file args) = inr df ->
  ~ (In "weather" (columns df) /\ In "date" (columns df)) ->
  stdout (run args fs)
  = [("Preprocessing gagal: Dataset tidak memiliki kolom yang diperlukan: "
      ++ repr_list (absent df))%string] /\
  stderr (run args fs) = [] /\
  fs_after (run args fs) = fs /\
  uncaught (run args fs) = None /\
  (In "date" (columns df) -> repr_list (absent df) = "['weather']") /\
  (In "weather" (columns df) -> repr_list (absent df) = "['date']") /\
  (~ In "weather" (columns df) -> ~ In "date" (columns df) ->
   repr_list (absent df) = "['date', 'weather']").
Proof.
  intros Hl Hm.
  assert (Hrun : run args fs
                 = {| stdout :=
                        [("Preprocessing gagal: "
                          ++ error_message library_message
                               (SchemaError (absent df)))%string];
                      stderr := []; fs_after := fs; uncaught := None |}).
  { unfold run, main_body. unfold load in Hl. rewrite Hl.
    rewrite preprocess_schema_error; [reflexivity|].
    intro E. apply Hm. now apply absent_nil. }
  rewrite Hrun. simpl.
  split; [reflexivity|]. split; [reflexivity|]. split; [reflexivity|].
  split; [reflexivity|].
  unfold absent. simpl.
  destruct (Py.mem string_dec "date" (columns df)) eqn:Ed;
    destruct (Py.mem string_dec "weather" (columns df)) eqn:Ew;
    try apply mem_true_iff in Ed; try apply mem_true_iff in Ew;
    try apply mem_false_iff in Ed; try apply mem_false_iff in Ew;
    simpl; repeat split; intros; try reflexivity; tauto.
Qed.

(** X11. When the file was loaded, the transformer returned and the table
    was saved, [main] calls [print] 6 + K times, K being the number of
    distinct target values, with these texts: the closing line, the input
    path, the path of the written file, the heading of the mapping, then
    one text per distinct target value, in increasing order of the values,
    the i-th showing the value and the code i, then the heading of the
    preview (which starts with a line break) and the first five rows as
    pandas prints them.  The warnings of the transformer are logged
    unchanged. *)
Theorem main_success_report (args : Namespace) (fs fs' : FS)
  (df : DataFrame) (log : list event) (p : Processed)
  (m : list (cell * nat)) (path : string) :
  load fs (resolved_input this_file args) = inr df ->
  preprocess_data np to_float h df = (log, inr (p, m)) ->
  save fs p (output_dir args) = (fs', inr path) ->
  let r := run args fs in
  let classes := classes_of (target df) in
  stdout r
  = ["Preprocessing selesai";
     ("Input      : " ++ resolved_input this_file args)%string;
     ("Output file: " ++ path)%string;
     "Label mapping (weather -> encoded):"]
    ++ map (mapping_line str_float) m
    ++ [String (ascii_of_nat 10) " Preview output:"; show (head_rows p)] /\
  List.length (stdout r)
  = 6 + List.length (nodup cell_eq_dec (target df)) /\
  (forall i v, nth_error classes i = Some v ->
     nth_error (stdout r) (4 + i)
     = Some ("  - " ++ str_cell str_float v ++ ": " ++ string_of_nat i)%string) /\
  StronglySorted cell_lt classes /\
  stderr r = log /\ fs_after r = fs' /\ uncaught r = None.
Proof.
  intros Hl Hp Hs r classes.
  assert (Hr : r = {| stdout :=
                        ["Preprocessing selesai";
                         ("Input      : "
                          ++ resolved_input this_file args)%string;
                         ("Output file: " ++ path)%string;
                         "Label mapping (weather -> encoded):"]
                        ++ map (mapping_line str_float) m
                        ++ [String (ascii_of_nat 10) " Preview output:";
                            show (head_rows p)];
                      stderr := log; fs_after := fs'; uncaught := None |}).
  { unfold r, run, main_body. unfold load in Hl. unfold save in Hs.
    now rewrite Hl, Hp, Hs. }
  destruct (success_outputs _ _ _ _ _ _ _ Hp) as [Hm _].
  rewrite Hr. cbn [stdout stderr fs_after uncaught].
  split; [reflexivity|]. split; [|split; [|split]].
  - rewrite length_app, length_app, length_map. cbn [List.length].
    rewrite Hm, <- (length_map fst), mapping_of_keys, classes_of_length.
    lia.
  - intros i v Hi.
    change (nth_error
              (["Preprocessing selesai";
                ("Input      : " ++ resolved_input this_file args)%string;
                ("Output file: " ++ path)%string;
                "Label mapping (weather -> encoded):"]
                 ++ (map (mapping_line str_float) m
                       ++ [String (ascii_of_nat 10) " Preview output:";
                           show (head_rows p)])) (4 + i)
            = Some ("  - " ++ str_cell str_float v ++ ": "
                    ++ string_of_nat i)%string).
    rewrite nth_error_app2 by (simpl; lia).
    replace (4 + i - List.length
                       ["Preprocessing selesai";
                        ("Input      : "
                         ++ resolved_input this_file args)%string;
                        ("Output file: " ++ path)%string;
                        "Label mapping (weather -> encoded):"])
      with i by (simpl; lia).
    assert (Hlt : i < List.length classes).
    { apply nth_error_Some. congruence. }
    rewrite nth_error_app1
      by (rewrite length_map, Hm, <- (length_map fst), mapping_of_keys;
          exact Hlt).
    rewrite nth_error_map, Hm. unfold mapping_of.
    rewrite nth_error_zip_seq. fold classes. rewrite Hi. reflexivity.
  - apply classes_of_sorted.
  - auto.
Qed.

(** X12. The path that [save_processed] returns is the path it wrote to,
    on the file system left by [os.makedirs], which did not fail; it is
    the directory joined with the fixed output name, so that its last
    component is that name whatever the directory (and whatever the
    input). *)
Theorem saved_file_name (fs fs' : FS) (p : Processed) (dir path : string) :
  save fs p dir = (fs', inr path) ->
  path = Posix.join dir output_name /\
  Posix.basename path = output_name /\
  snd (makedirs fs dir) = None /\
  to_csv (fst (makedirs fs dir)) p path = (fs', None).
Proof.
  unfold save, save_processed.
  destruct (makedirs fs dir) as [fs1 [e|]] eqn:Em; [discriminate|].
  destruct (to_csv fs1 p (Posix.join dir output_name)) as [fs2 [e|]] eqn:Ec;
    [discriminate|].
  intros [= <- <-]. split; [reflexivity|].
  split; [now apply basename_join|].
  split; [reflexivity|exact Ec].
Qed.
End ReportFacts.

Lemma main_reports_missing_columns_witness :
  toy_read toy_disk "nodate.csv"
  = inr {| columns := ["weather"; "temp"];
           rows := [[Text "rain"; Num (qc 10)]] |} /\
  stdout (toy_main {| input := Some "nodate.csv"; output_dir := "out" |}
            toy_disk)
  = ["Preprocessing gagal: Dataset tidak memiliki kolom yang diperlukan: ['date']"].
Proof.
  split; [reflexivity|].
  assert (Hm : ~ (In "weather" ["weather"; "temp"]
                  /\ In "date" ["weather"; "temp"])).
  { simpl. intros [_ [E|[E|[]]]]; discriminate. }
  exact (proj1 (main_reports_missing_columns toy_fs toy_exists toy_read
                  toy_makedirs toy_to_csv rational_ops decimal reversing
                  "/repo/Preprocessing/automate_Irfan_Ziyadi_R.py"
                  (fun _ => "?") (fun _ => "<frame>") (fun exn => exn)
                  {| input := Some "nodate.csv"; output_dir := "out" |}
                  toy_disk
                  {| columns := ["weather"; "temp"];
                     rows := [[Text "rain"; Num (qc 10)]] |}
                  eq_refl Hm)).
Defined.

Lemma main_success_report_witness :
  stdout (toy_main {| input := Some "raw.csv"; output_dir := "out" |}
            toy_disk)
  = ["Preprocessing selesai"; "Input      : raw.csv";
     "Output file: out/seattle_weather_processed.csv";
     "Label mapping (weather -> encoded):"; "  - rain: 0"; "  - sun: 1";
     String (ascii_of_nat 10) " Preview output:"; "<frame>"].
Proof.
  exact (proj1 (main_success_report toy_fs toy_exists toy_read
                  toy_makedirs toy_to_csv rational_ops decimal reversing
                  "/repo/Preprocessing/automate_Irfan_Ziyadi_R.py"
                  (fun _ => "?") (fun _ => "<frame>") (fun exn => exn)
                  {| input := Some "raw.csv"; output_dir := "out" |}
                  toy_disk _ example_frame [] example_processed
                  example_mapping "out/seattle_weather_processed.csv"
                  eq_refl example_run eq_refl)).
Defined.

Lemma saved_file_name_witness :
  save_processed toy_fs toy_makedirs toy_to_csv toy_disk example_processed
                 "out/"
  = (fst (save_processed toy_fs toy_makedirs toy_to_csv toy_disk
            example_processed "out/"),
     inr "out/seattle_weather_processed.csv") /\
  Posix.basename "out/seattle_weather_processed.csv" = output_name.
Proof.
  assert (H : save_processed toy_fs toy_makedirs toy_to_csv toy_disk
                example_processed "out/"
              = (fst (save_processed toy_fs toy_makedirs toy_to_csv toy_disk
                        example_processed "out/"),
                 inr "out/seattle_weather_processed.csv"))
    by reflexivity.
  split; [exact H|].
  apply (saved_file_name toy_fs toy_makedirs toy_to_csv toy_disk _
           example_processed "out/" _ H).
Defined.

(** ** The default input path *)

Lemma string_app_assoc (a b c : string) :
  ((a ++ b) ++ c)%string = (a ++ (b ++ c))%string.
Proof.
  induction a as [|x a IH]; simpl; congruence.
Qed.

Lemma contains_sep_after (d name : string) :
  Posix.contains_sep (d ++ String "/" name) = true.
Proof.
  induction d as [|c d IH]; simpl; auto. rewrite IH. apply orb_true_r.
Qed.

Lemma head_after_sep (d name : string) :
  Posix.contains_sep name = false ->
  Posix.head (d ++ String "/" name) = (d ++ "/")%string.
Proof.
  intros Hn. induction d as [|c d IH]; simpl.
  - now rewrite Hn.
  - now rewrite contains_sep_after, IH.
Qed.

Lemma all_sep_app (a b : string) :
  Posix.all_sep (a ++ b) = Posix.all_sep a && Posix.all_sep b.
Proof.
  induction a as [|c a IH]; simpl; auto. now rewrite IH, andb_assoc.
Qed.

Lemma all_sep_no_sep (s : string) :
  s <> EmptyString -> Posix.contains_sep s = false -> Posix.all_sep s = false.
Proof.
  destruct s as [|c s]; [congruence|]. simpl. intros _ H.
  apply orb_false_iff in H. destruct H as [-> _]. reflexivity.
Qed.

Lemma ends_with_sep_app (a b : string) :
  b <> EmptyString ->
  Posix.ends_with_sep (a ++ b) = Posix.ends_with_sep b.
Proof.
  intros Hb. induction a as [|c a IH]; simpl; auto.
  destruct (a ++ b)%string eqn:E; auto.
  destruct a; simpl in E; congruence.
Qed.

Lemma ends_with_sep_contains (s : string) :
  Posix.ends_with_sep s = true -> Posix.contains_sep s = true.
Proof.
  induction s as [|c s IH]; simpl; [discriminate|].
  destruct s as [|c' s'].
  - intros ->. reflexivity.
  - intros H. rewrite (IH H). apply orb_true_r.
Qed.

Lemma all_sep_ends (s : string) :
  s <> EmptyString -> Posix.all_sep s = true -> Posix.ends_with_sep s = true.
Proof.
  induction s as [|c s IH]; [congruence|]. intros _. simpl.
  intros H. apply andb_true_iff in H. destruct H as [Hc Hs].
  destruct s as [|c' s']; auto. apply IH; [discriminate|exact Hs].
Qed.

Lemma rstrip_sep_app_sep (s : string) :
  Posix.rstrip_sep (s ++ "/") = Posix.rstrip_sep s.
Proof.
  induction s as [|c s IH]; simpl; auto. now rewrite IH.
Qed.

Lemma rstrip_sep_fixed (s : string) :
  Posix.ends_with_sep s = false -> Posix.rstrip_sep s = s.
Proof.
  induction s as [|c s IH]; simpl; auto.
  destruct s as [|c' s'].
  - simpl. now intros ->.
  - intros H. now rewrite (IH H).
Qed.

Lemma join_plain (a b : string) :
  Posix.starts_with_sep b = false -> a <> EmptyString ->
  Posix.ends_with_sep a = false ->
  Posix.join a b = (a ++ "/" ++ b)%string.
Proof.
  intros Hb Ha He. unfold Posix.join. rewrite Hb.
  destruct a; [congruence|]. now rewrite He.
Qed.

Lemma dirname_of_file (d name : string) :
  Posix.ends_with_sep d = false -> d <> EmptyString ->
  Posix.all_sep d = false ->
  Posix.contains_sep name = false ->
  Posix.dirname (d ++ String "/" name) = d.
Proof.
  intros He Hd Ha Hn. unfold Posix.dirname.
  rewrite head_after_sep by exact Hn.
  destruct (d ++ "/")%string eqn:E.
  - destruct d; simpl in E; congruence.
  - rewrite <- E, all_sep_app, Ha. simpl.
    now rewrite rstrip_sep_app_sep, rstrip_sep_fixed.
Qed.

(** X13. An absent or empty [--input] is replaced by the default path, any
    other value is used as it is.  When the script lies at
    [root/pkg/script] ([root] not ending with a separator, [pkg] a
    non-empty name), the default path is
    [root/Weather_datasets_raw/seattle-weather.csv]: the data directory next
    to the directory of the script. *)
Theorem default_input_location (root pkg script : string) :
  Posix.ends_with_sep root = false ->
  Posix.contains_sep pkg = false -> pkg <> EmptyString ->
  Posix.contains_sep script = false ->
  let file := (root ++ "/" ++ pkg ++ "/" ++ script)%string in
  default_input file
  = (root ++ "/Weather_datasets_raw/seattle-weather.csv")%string /\
  (forall dir, resolved_input file {| input := None; output_dir := dir |}
               = default_input file) /\
  (forall dir,
     resolved_input file {| input := Some EmptyString; output_dir := dir |}
     = default_input file) /\
  (forall path dir, path <> EmptyString ->
     resolved_input file {| input := Some path; output_dir := dir |} = path).
Proof.
  intros Hr Hp Hpn Hs file.
  split; [|split; [reflexivity|split; [reflexivity|]]].
  2:{ intros [|c s] dir H; [congruence|reflexivity]. }
  unfold default_input.
  assert (E1 : Posix.dirname file = (root ++ String "/" pkg)%string).
  { unfold file.
    change (root ++ "/" ++ pkg ++ "/" ++ script)%string
      with (root ++ (String "/" pkg ++ String "/" script))%string.
    rewrite <- string_app_assoc. apply dirname_of_file; auto.
    - rewrite ends_with_sep_app by discriminate.
      destruct (Posix.ends_with_sep (String "/" pkg)) eqn:E; auto.
      destruct pkg as [|c pkg']; [congruence|].
      change (Posix.ends_with_sep (String c pkg') = true) in E.
      apply ends_with_sep_contains in E. congruence.
    - destruct root; discriminate.
    - rewrite all_sep_app. change (String "/" pkg) with ("/" ++ pkg)%string.
      rewrite all_sep_app, (all_sep_no_sep pkg) by auto.
      now rewrite !andb_false_r. }
  rewrite E1.
  destruct root as [|c root'].
  - assert (E2 : Posix.dirname (EmptyString ++ String "/" pkg) = "/").
    { unfold Posix.dirname. now rewrite (head_after_sep EmptyString pkg Hp). }
    rewrite E2. reflexivity.
  - assert (E2 : Posix.dirname (String c root' ++ String "/" pkg)
                 = String c root').
    { apply dirname_of_file; auto; [discriminate|].
      destruct (Posix.all_sep (String c root')) eqn:E; auto.
      apply all_sep_ends in E; [congruence|discriminate]. }
    rewrite E2.
    rewrite (join_plain (String c root') "Weather_datasets_raw");
      [|reflexivity|discriminate|exact Hr].
    rewrite join_plain.
    + now rewrite string_app_assoc.
    + reflexivity.
    + simpl. discriminate.
    + rewrite ends_with_sep_app by discriminate. reflexivity.
Qed.

Lemma default_input_location_witness :
  Posix.ends_with_sep "/repo" = false /\
  default_input "/repo/Preprocessing/automate_Irfan_Ziyadi_R.py"
  = "/repo/Weather_datasets_raw/seattle-weather.csv".
Proof.
  split; [reflexivity|].
  assert (Hn : "Preprocessing" <> EmptyString) by discriminate.
  exact (proj1 (default_input_location "/repo" "Preprocessing"
                  "automate_Irfan_Ziyadi_R.py" eq_refl eq_refl Hn eq_refl)).
Defined.

Section SuccessLine.
Variable FS : Type.
Variable path_exists : FS -> string -> bool.
Variable read_csv : FS -> string -> exn + DataFrame.
Variable makedirs : FS -> string -> FS * option exn.
Variable to_csv : FS -> Processed -> string -> FS * option exn.
Variable np : FloatOps.
Variable to_float : string -> float64.
Variable h : Py.HashOrder.
Variable this_file : string.
Variable str_float : number -> string.
Variable show : Processed -> string.
Variable library_message : string -> string.

(** [run args fs]: [main] on the file system [fs], from the point where
    [parse_args()] has returned [args]. *)
Let run := main_body FS path_exists read_csv makedirs to_csv np to_float h
                     this_file str_float show library_message.
Let load := load_data FS path_exists read_csv.
Let save := save_processed FS makedirs to_csv.

(** X14. The first line printed is the closing line "Preprocessing
    selesai" exactly when the file was loaded, the transformer returned a
    table and [save_processed] wrote it and returned its path; every other
    run that returns prints a single line. *)
Theorem success_line_means_saved (args : Namespace) (fs : FS) :
  (hd_error (stdout (run args fs)) = Some "Preprocessing selesai" <->
   exists df log p m path,
     load fs (resolved_input this_file args) = inr df /\
     preprocess_data np to_float h df = (log, inr (p, m)) /\
     save fs p (output_dir args) = (fs_after (run args fs), inr path)) /\
  (uncaught (run args fs) = None ->
   hd_error (stdout (run args fs)) <> Some "Preprocessing selesai" ->
   List.length (stdout (run args fs)) = 1).
Proof.
  unfold run, main_body, load, save.
  destruct (load_data FS path_exists read_csv fs
              (resolved_input this_file args)) as [[msg|msg]|df] eqn:El.
  - simpl. split; [|auto]. split; [discriminate|].
    intros (df & log & p & m & path & [=] & _).
  - simpl. split; [|discriminate]. split; [discriminate|].
    intros (df & log & p & m & path & [=] & _).
  - destruct (preprocess_data np to_float h df) as [log [e|[p m]]] eqn:Ep.
    + simpl. split; [|auto]. split; [discriminate|].
      intros (df' & log' & p' & m' & path & [= <-] & Hp & _).
      rewrite Ep in Hp. discriminate.
    + destruct (save_processed FS makedirs to_csv fs p (output_dir args))
        as [fs' [e|path]] eqn:Es.
      * simpl. split; [|auto]. split; [discriminate|].
        intros (df' & log' & p' & m' & path & [= <-] & Hp & Hs).
        rewrite Ep in Hp. injection Hp as <- <- <-.
        rewrite Es in Hs. discriminate.
      * simpl. split; [|intros _ H; now elim H]. split; auto.
        intros _. exists df, log, p, m, path. now rewrite Es.
Qed.
End SuccessLine.
